(** * webrunch: the git bridge over the sandboxed filesystem

    A shallow embedding of [useGit] (credential cache, auth hooks,
    clone / push / pull), of the filesystem adapter [getFs] and of the
    path algebra [pathUtils], with the properties the specification
    states about them. *)

From Stdlib Require Import Ascii.
From stdpp Require Import gmap strings list fin_maps pretty.

Set Warnings "-register-all".

(** ** JavaScript strings

    A string is its sequence of code units; the functions below are the
    [String.prototype] methods the source calls. *)

Module JsString.

Definition slash : ascii := "/"%char.

Definition is_slash (c : ascii) : bool := bool_decide (c = slash).

Definition is_empty (s : string) : bool :=
  match s with "" => true | String _ _ => false end.

(** [s.replace(/\/+$/, '')]: the only match of the pattern is the
    maximal run of separators that ends the string. *)
Fixpoint strip_trailing_slashes (s : string) : string :=
  match s with
  | "" => ""
  | String c r =>
      let r' := strip_trailing_slashes r in
      if is_slash c && is_empty r' then "" else String c r'
  end.

(** [s.split('/')]: never empty, [''.split('/')] is [['']]. *)
Fixpoint split_slash (s : string) : list string :=
  match s with
  | "" => [""]
  | String c r =>
      if is_slash c then "" :: split_slash r
      else match split_slash r with
           | [] => [String c ""]
           | h :: t => String c h :: t
           end
  end.

(** [s.includes('/')] *)
Fixpoint includes_slash (s : string) : bool :=
  match s with
  | "" => false
  | String c r => is_slash c || includes_slash r
  end.

(** [parts.join('/')] *)
Definition join_slash (parts : list string) : string :=
  String.concat "/" parts.

(** [s.endsWith(ext)] *)
Definition ends_with (s ext : string) : bool :=
  bool_decide (String.length ext ≤ String.length s)%nat &&
  String.eqb (String.substring (String.length s - String.length ext)%nat
                               (String.length ext) s) ext.

End JsString.

(** ** Path algebra ([pathUtils]) *)

Module pathUtils.
Import JsString.

(** [parts.slice(0, -1)] *)
Definition slice_init {A} (l : list A) : list A := take (length l - 1) l.

(** [x || d] on strings: the empty string is falsy. *)
Definition or_else (x d : string) : string := if is_empty x then d else x.

Definition dirname (path : string) : string :=
  if is_empty path || negb (includes_slash path) then "."
  else
    let path := strip_trailing_slashes path in
    or_else (join_slash (slice_init (split_slash path))) "/".

Definition basename (path : string) (ext : option string) : string :=
  let path := strip_trailing_slashes path in
  let base := or_else (default "" (last (split_slash path))) "" in
  match ext with
  | Some e =>
      if negb (is_empty e) && ends_with base e
      then String.substring 0 (String.length base - String.length e)%nat base
      else base
  | None => base
  end.

(** [p.replace(/\/+$/, '').split('/').filter(Boolean)] *)
Definition normalizePathParts (p : string) : list string :=
  filter (λ seg, is_empty seg = false) (split_slash (strip_trailing_slashes p)).

(** The [for] loop of [relative]: [n] iterations are left, [i] is the
    loop index; the loop leaves at the first index where the two
    segments differ. *)
Fixpoint common_loop (fromParts toParts : list string)
         (n i commonLength : nat) : nat :=
  match n with
  | 0 => commonLength
  | S n' =>
      if bool_decide (fromParts !! i ≠ toParts !! i) then commonLength
      else common_loop fromParts toParts n' (S i) (S commonLength)
  end.

Definition relative (from to : string) : string :=
  if is_empty from || is_empty to then "."
  else
    let fromParts := normalizePathParts from in
    let toParts := normalizePathParts to in
    let minLength := length fromParts `min` length toParts in
    let commonLength := common_loop fromParts toParts minLength 0 0 in
    let upCount := length fromParts - commonLength in
    let remainingPath := drop commonLength toParts in
    let relativeParts := replicate upCount ".." ++ remainingPath in
    if bool_decide (length relativeParts = 0) then "."
    else join_slash relativeParts.

End pathUtils.

(** ** JavaScript values, thrown values and results *)

Inductive JsVal :=
| JUndefined
| JNull
| JBool (b : bool)
| JNum (repr : string)        (* a number, by its [ToString] rendering *)
| JStr (s : string)
| JBytes (bs : list Byte.byte) (* a [Uint8Array] *)
| JArr (items : list JsVal)
| JObj (fields : gmap string JsVal).

(** An [Error] object: [new Error(message)] sets [message] only; the
    [NodeJS.ErrnoException] fields are set by assignment afterwards. *)
Record JsError := mkJsError {
  err_name : string;
  err_message : string;
  err_code : option string;
  err_errno : option Z;
  err_syscall : option string;
  err_path : option string;
}.

Definition new_Error (message : string) : JsError :=
  mkJsError "Error" message None None None None.

Definition TypeError (message : string) : JsError :=
  mkJsError "TypeError" message None None None None.

(** [throw] accepts any value; the source throws strings and errors. *)
Inductive Thrown :=
| ThrowStr (s : string)
| ThrowErr (e : JsError)
| ThrowVal (v : JsVal).

(** The outcome of an awaited call: resolved or rejected. *)
Inductive Res (A : Type) :=
| Ok (a : A)
| Rejected (t : Thrown).
Arguments Ok {A} a.
Arguments Rejected {A} t.

Module Js.

(** [ToBoolean] *)
Definition truthy (v : JsVal) : bool :=
  match v with
  | JUndefined | JNull => false
  | JBool b => b
  | JNum r => negb (bool_decide (r = "0" ∨ r = "NaN"))
  | JStr s => negb (JsString.is_empty s)
  | JBytes _ | JArr _ | JObj _ => true
  end.

(** [v.key] for the keys this program reads ([encoding], [username],
    [password]): reading a property of [undefined] or [null] throws,
    an object yields its own field, every other value has no such
    property. *)
Definition get (v : JsVal) (key : string) : Res JsVal :=
  match v with
  | JUndefined =>
      Rejected (ThrowErr (TypeError
        ("Cannot read properties of undefined (reading '" +:+ key +:+ "')")))
  | JNull =>
      Rejected (ThrowErr (TypeError
        ("Cannot read properties of null (reading '" +:+ key +:+ "')")))
  | JObj fields => Ok (default JUndefined (fields !! key))
  | _ => Ok JUndefined
  end.

(** [v?.key] *)
Definition get_opt (v : JsVal) (key : string) : JsVal :=
  match v with
  | JObj fields => default JUndefined (fields !! key)
  | _ => JUndefined
  end.

Fixpoint chars (s : string) : list JsVal :=
  match s with
  | "" => []
  | String c r => JStr (String c "") :: chars r
  end.

Definition indexed (l : list JsVal) : gmap string JsVal :=
  list_to_map (imap (λ i x, (pretty i, x)) l).

(** [{...v}]: the own enumerable properties of [v]. *)
Definition spread (v : JsVal) : gmap string JsVal :=
  match v with
  | JObj fields => fields
  | JArr items => indexed items
  | JStr s => indexed (chars s)
  | _ => ∅
  end.

(** [`${v}`] *)
Fixpoint to_string (v : JsVal) : string :=
  match v with
  | JUndefined => "undefined"
  | JNull => "null"
  | JBool true => "true"
  | JBool false => "false"
  | JNum r => r
  | JStr s => s
  | JBytes bs => String.concat "," ((λ b, pretty (Byte.to_N b)) <$> bs)
  | JArr items =>
      String.concat ","
        ((fix each (l : list JsVal) : list string :=
            match l with
            | [] => []
            | x :: r =>
                match x with
                | JUndefined | JNull => ""
                | _ => to_string x
                end :: each r
            end) items)
  | JObj _ => "[object Object]"
  end.

Definition of_prompt (answer : option string) : JsVal :=
  match answer with
  | Some s => JStr s
  | None => JNull
  end.

(** [error?.message] as printed by [console.log] *)
Definition message_of (t : Thrown) : string :=
  match t with
  | ThrowErr e => err_message e
  | ThrowStr _ => "undefined"
  | ThrowVal v => to_string (get_opt v "message")
  end.

End Js.

(** ** The data model *)

Record LedgerEntry := mkEntry {
  data : JsVal;
  encoding : JsVal;
}.

Record Credential := mkCredential {
  username : JsVal;
  password : JsVal;
}.

(** What [onAuth] hands back to the protocol engine. *)
Inductive AuthOutcome :=
| Supplied (c : Credential)
| Cancelled.

Record Dirent := mkDirent {
  name : string;
  dirent_isFile : bool;
  dirent_isDirectory : bool;
}.

(** What the sandbox's [readdir] resolves to. *)
Inductive DirListing :=
| Names (l : list string)
| Dirents (l : list Dirent).

Record SyntheticStat := mkStat {
  isFile : bool;
  isDirectory : bool;
  isSymbolicLink : bool;
  size : Z;
  mode : Z;
  mtimeMs : Z;
  uid : Z;
  gid : Z;
}.

Record CloneArgs := mkCloneArgs {
  clone_dir : string;
  clone_url : string;
  clone_depth : Z;
  clone_singleBranch : bool;
  clone_corsProxy : string;
  clone_headers : gmap string string;
}.

Record PushArgs := mkPushArgs {
  push_dir : string;
  push_remote : string;
  push_ref : string;
  push_corsProxy : string;
}.

Record PullArgs := mkPullArgs {
  pull_dir : string;
  pull_singleBranch : bool;
  pull_corsProxy : string;
  pull_headers : gmap string string;
}.

Record GetConfigArgs := mkGetConfigArgs {
  config_dir : string;
  config_path : string;
}.

(** What the outside world can observe of a run. *)
Inductive Event :=
| Console (level text : string)
| ConsoleError (text : string) (t : Thrown)
| ToastError (text : string)
| ToastSuccess (text : string)
| Confirm (text : string) (answer : bool)
| Prompt (text : string) (answer : option string)
| HttpRequest (request : JsVal)
| EngineClone (args : CloneArgs)
| EnginePush (args : PushArgs)
| EnginePull (args : PullArgs)
| EngineGetConfig (args : GetConfigArgs).

(** The events that reach the network: a request on the transport, or
    the engine's clone, push or pull being started. *)
Definition is_network (e : Event) : bool :=
  match e with
  | HttpRequest _ | EngineClone _ | EnginePush _ | EnginePull _ => true
  | _ => false
  end.

(** ** External collaborators

    The sandbox filesystem ([webcontainer.fs]) is a black box with its own
    state [SB]; every call may change that state and resolves or rejects. *)

Class WebContainerFs (SB : Type) := {
  wc_readFile : string → JsVal → SB → SB * Res JsVal;
  wc_writeFile : string → JsVal → gmap string JsVal → SB → SB * Res JsVal;
  wc_mkdir : string → gmap string JsVal → SB → SB * Res JsVal;
  wc_readdir : string → JsVal → SB → SB * Res DirListing;
  wc_rm : string → gmap string JsVal → SB → SB * Res JsVal;
}.

(** The browser: the built-ins the source calls, the user in front of the
    dialogs, the clock and the network. Dialogs, clock and network are
    indexed by the number of such interactions that came before. *)
Class Browser := {
  JSON_parse : string → option JsVal;      (* [None]: a [SyntaxError] *)
  JSON_stringify : JsVal → string;
  base64 : string → string;                (* [Buffer.from(s).toString('base64')] *)
  user_confirm : nat → string → bool;
  user_prompt : nat → string → option string;
  Date_now : nat → Z;
  http_response : nat → JsVal → Res JsVal;
}.

(** ** State and the monad of the hook *)

Record World (SB : Type) := mkWorld {
  initialized : bool;                      (* [webcontainer && fs && ready] *)
  workdir : string;                        (* [webcontainer.workdir] *)
  ledger : gmap string LedgerEntry;        (* [fileData.current] *)
  sandbox : SB;
  cookies : gmap string string;
  ticks : nat;
  trace : list Event;
}.
Arguments mkWorld {SB}.
Arguments initialized {SB}.
Arguments workdir {SB}.
Arguments ledger {SB}.
Arguments sandbox {SB}.
Arguments cookies {SB}.
Arguments ticks {SB}.
Arguments trace {SB}.

Definition M (SB A : Type) : Type := World SB → World SB * Res A.

Definition ret {SB A} (a : A) : M SB A := λ w, (w, Ok a).

Definition throw {SB A} (t : Thrown) : M SB A := λ w, (w, Rejected t).

Definition bind {SB A B} (m : M SB A) (k : A → M SB B) : M SB B :=
  λ w, match m w with
       | (w', Ok a) => k a w'
       | (w', Rejected t) => (w', Rejected t)
       end.

(** [try { m } catch (error) { handler(error) }] *)
Definition try_catch {SB A} (m : M SB A) (handler : Thrown → M SB A) : M SB A :=
  λ w, match m w with
       | (w', Ok a) => (w', Ok a)
       | (w', Rejected t) => handler t w'
       end.

Definition lift {SB A} (r : Res A) : M SB A := λ w, (w, r).

Notation "x <-- m ;; k" := (bind m (λ x, k))
  (at level 100, m at next level, right associativity).
Notation "m ;;; k" := (bind m (λ _, k))
  (at level 100, right associativity).

Section Hook.
Context {SB : Type} `{!WebContainerFs SB} `{!Browser}.

Definition emit (e : Event) : M SB unit :=
  λ w, (mkWorld (initialized w) (workdir w) (ledger w) (sandbox w)
                (cookies w) (ticks w) (trace w ++ [e]), Ok tt).

Definition tick : M SB nat :=
  λ w, (mkWorld (initialized w) (workdir w) (ledger w) (sandbox w)
                (cookies w) (S (ticks w)) (trace w), Ok (ticks w)).

Definition set_ledger (l : gmap string LedgerEntry) : M SB unit :=
  λ w, (mkWorld (initialized w) (workdir w) l (sandbox w)
                (cookies w) (ticks w) (trace w), Ok tt).

Definition set_cookies (c : gmap string string) : M SB unit :=
  λ w, (mkWorld (initialized w) (workdir w) (ledger w) (sandbox w)
                c (ticks w) (trace w), Ok tt).

Definition get_world : M SB (World SB) := λ w, (w, Ok w).

(** A call into the sandbox filesystem. *)
Definition on_sandbox {A} (op : SB → SB * Res A) : M SB A :=
  λ w, let '(sb, r) := op (sandbox w) in
       (mkWorld (initialized w) (workdir w) (ledger w) sb
                (cookies w) (ticks w) (trace w), r).

(** [confirm(text)] and [prompt(text)] *)
Definition confirm (text : string) : M SB bool :=
  n <-- tick ;;
  let answer := user_confirm n text in
  emit (Confirm text answer) ;;; ret answer.

Definition prompt (text : string) : M SB (option string) :=
  n <-- tick ;;
  let answer := user_prompt n text in
  emit (Prompt text answer) ;;; ret answer.

(** ** Credential cache *)

(** [url.split('/')[2]] inside a template literal *)
Definition domain_of (url : string) : string :=
  match JsString.split_slash url !! 2 with
  | Some d => d
  | None => "undefined"
  end.

Definition lookupSavedPassword (url : string) : M SB (option Credential) :=
  let domain := domain_of url in
  w <-- get_world ;;
  match cookies w !! ("git:" +:+ domain) with
  | None => ret None
  | Some gitCreds =>
      if JsString.is_empty gitCreds then ret None
      else
        match JSON_parse gitCreds with
        | None =>
            emit (Console "log" "Failed to parse Git Cookie SyntaxError") ;;;
            ret None
        | Some v =>
            match Js.get v "username", Js.get v "password" with
            | Ok u, Ok p => ret (Some (mkCredential u p))
            | _, _ =>
                emit (Console "log" "Failed to parse Git Cookie TypeError") ;;;
                ret None
            end
        end
  end.

Definition saveGitAuth (url : string) (auth : JsVal) : M SB unit :=
  let domain := domain_of url in
  w <-- get_world ;;
  set_cookies (<["git:" +:+ domain := JSON_stringify auth]> (cookies w)).

(** ** Auth hooks (the same three closures in clone, push and pull) *)

Definition onAuth (url : string) : M SB AuthOutcome :=
  auth <-- lookupSavedPassword url ;;
  match auth with
  | Some c => ret (Supplied c)
  | None =>
      ready <-- confirm
        "This repo is password protected. Ready to enter a username & password?" ;;
      if ready : bool then
        u <-- prompt "Enter username" ;;
        p <-- prompt "Enter password" ;;
        ret (Supplied (mkCredential (Js.of_prompt u) (Js.of_prompt p)))
      else ret Cancelled
  end.

Definition onAuthFailure (url : string) (_auth : JsVal) : M SB unit :=
  emit (ToastError ("Error Authenticating with " +:+ domain_of url)).

Definition onAuthSuccess (url : string) (auth : JsVal) : M SB unit :=
  saveGitAuth url auth.

(** The headers clone and pull compute before calling the engine. *)
Definition eager_headers (url : string) : M SB (gmap string string) :=
  let headers : gmap string string := {[ "User-Agent" := "bolt.diy" ]} in
  auth <-- lookupSavedPassword url ;;
  match auth with
  | Some c =>
      ret (<["Authorization" :=
               "Basic " +:+ base64 (Js.to_string (username c) +:+ ":" +:+
                                    Js.to_string (password c))]> headers)
  | None => ret headers
  end.

End Hook.

(** ** The filesystem adapter ([getFs]) *)

Module getFs.
Section Adapter.
Context {SB : Type} `{!WebContainerFs SB} `{!Browser}.

Definition relativePath_of (path : string) : M SB string :=
  w <-- get_world ;; ret (pathUtils.relative (workdir w) path).

Definition readFile (path : string) (options : JsVal) : M SB JsVal :=
  let encoding := Js.get_opt options "encoding" in
  relativePath <-- relativePath_of path ;;
  try_catch (on_sandbox (wc_readFile relativePath encoding)) throw.

(** [record.current[key] = entry]: the ledger is a plain object, and
    the map below holds its own properties, which is what
    [Object.entries] lists. Every key gets an own property but
    [__proto__]: that key is the accessor inherited from
    [Object.prototype], and assigning an object to it replaces the
    prototype and adds no property. *)
Definition record_set (key : string) (entry : LedgerEntry)
           (current : gmap string LedgerEntry) : gmap string LedgerEntry :=
  if decide (key = "__proto__") then current
  else <[key := entry]> current.

Definition writeFile (path : string) (data : JsVal) (options : JsVal)
  : M SB JsVal :=
  encoding <-- lift (Js.get options "encoding") ;;
  relativePath <-- relativePath_of path ;;
  w <-- get_world ;;
  set_ledger (record_set relativePath (mkEntry data encoding) (ledger w)) ;;;
  try_catch
    (on_sandbox (wc_writeFile relativePath data
                   (<["encoding" := encoding]> (Js.spread options))))
    throw.

Definition mkdir (path : string) (options : JsVal) : M SB JsVal :=
  relativePath <-- relativePath_of path ;;
  try_catch
    (on_sandbox (wc_mkdir relativePath
                   (<["recursive" := JBool true]> (Js.spread options))))
    throw.

Definition readdir (path : string) (options : JsVal) : M SB DirListing :=
  relativePath <-- relativePath_of path ;;
  try_catch (on_sandbox (wc_readdir relativePath options)) throw.

Definition rm (path : string) (options : JsVal) : M SB JsVal :=
  relativePath <-- relativePath_of path ;;
  try_catch
    (on_sandbox (wc_rm relativePath
                   (Js.spread (if Js.truthy options then options
                               else JObj ∅))))
    throw.

(** [{ recursive: true, ...options }]: the literal sets [recursive]
    first, then copies every property of [options] over it. *)
Definition rmdir_options (options : JsVal) : gmap string JsVal :=
  Js.spread options ∪ {[ "recursive" := JBool true ]}.

Definition rmdir (path : string) (options : JsVal) : M SB JsVal :=
  relativePath <-- relativePath_of path ;;
  try_catch (on_sandbox (wc_rm relativePath (rmdir_options options))) throw.

Definition unlink (path : string) : M SB JsVal :=
  relativePath <-- relativePath_of path ;;
  try_catch
    (on_sandbox (wc_rm relativePath {[ "recursive" := JBool false ]}))
    throw.

Definition enoent_message (path : string) : string :=
  "ENOENT: no such file or directory, stat '" +:+ path +:+ "'".

(** The error the [catch] block of [stat] builds. *)
Definition enoent (path : string) : JsError :=
  mkJsError "Error" (enoent_message path)
            (Some "ENOENT") (Some (-2)%Z) (Some "stat") (Some path).

(** [resp.find((x) => x.name == name)]; a listing of bare names has no
    element with a [name] property. *)
Definition find_entry (resp : DirListing) (target : string) : option Dirent :=
  match resp with
  | Dirents l => snd <$> list_find (λ x : Dirent, name x = target) l
  | Names _ => None
  end.

Definition synthesize (fileInfo : Dirent) (now : Z) : SyntheticStat :=
  mkStat (dirent_isFile fileInfo) (dirent_isDirectory fileInfo) false
         1 438 (* 0o666 *) now 1000 1000.

Definition stat (path : string) : M SB SyntheticStat :=
  try_catch
    (relativePath <-- relativePath_of path ;;
     resp <-- on_sandbox
       (wc_readdir (pathUtils.dirname relativePath)
                   (JObj {[ "withFileTypes" := JBool true ]})) ;;
     let name := pathUtils.basename relativePath None in
     match find_entry resp name with
     | None => throw (ThrowErr (new_Error (enoent_message path)))
     | Some fileInfo =>
         n <-- tick ;;
         ret (synthesize fileInfo (Date_now n))
     end)
    (λ error,
       emit (Console "log" (Js.message_of error)) ;;;
       throw (ThrowErr (enoent path))).

Definition lstat (path : string) : M SB SyntheticStat := stat path.

Definition readlink (path : string) : M SB JsVal :=
  throw (ThrowErr (new_Error
    ("EINVAL: invalid argument, readlink '" +:+ path +:+ "'"))).

Definition symlink (target path : string) : M SB JsVal :=
  throw (ThrowErr (new_Error
    ("EPERM: operation not permitted, symlink '" +:+ target +:+
     "' -> '" +:+ path +:+ "'"))).

Definition chmod (_path : string) (_mode : Z) : M SB JsVal :=
  ret JUndefined.

End Adapter.
End getFs.

(** ** The protocol engine

    [isomorphic-git] is a collaborator: all this program knows of it is
    what it is handed. A run of one of its entry points is a finite tree
    of calls back into what it was given (the adapter, the transport, the
    auth hooks), each continued on the call's outcome, ending in a result
    or a rejection. *)

Inductive EngineCall :=
| FsReadFile (path : string) (options : JsVal)
| FsWriteFile (path : string) (data options : JsVal)
| FsMkdir (path : string) (options : JsVal)
| FsReaddir (path : string) (options : JsVal)
| FsRm (path : string) (options : JsVal)
| FsRmdir (path : string) (options : JsVal)
| FsUnlink (path : string)
| FsStat (path : string)
| FsLstat (path : string)
| FsReadlink (path : string)
| FsSymlink (target path : string)
| FsChmod (path : string) (mode : Z)
| HttpCall (request : JsVal)
| HookOnAuth (url : string)
| HookOnAuthFailure (url : string) (auth : JsVal)
| HookOnAuthSuccess (url : string) (auth : JsVal).

Inductive Reply :=
| RVal (v : JsVal)
| RListing (l : DirListing)
| RStat (st : SyntheticStat)
| RAuth (a : AuthOutcome).

Inductive Engine (R : Type) :=
| Done (r : R)
| Fail (t : Thrown)
| Call (c : EngineCall) (k : Res Reply → Engine R).
Arguments Done {R} r.
Arguments Fail {R} t.
Arguments Call {R} c k.

Class GitEngine := {
  git_clone : CloneArgs → Engine unit;
  git_push : PushArgs → Engine unit;
  git_pull : PullArgs → Engine unit;
  git_getConfig : GetConfigArgs → Engine JsVal;
}.

(** What an entry point was handed besides [fs]: [clone], [push] and
    [pull] get [http] and the three hooks, [getConfig] gets neither. *)
Record Handed := mkHanded {
  with_http : bool;
  with_hooks : bool;
}.

Definition network_operation : Handed := mkHanded true true.
Definition local_operation : Handed := mkHanded false false.

Definition is_writeFile (c : EngineCall) : bool :=
  match c with
  | FsWriteFile _ _ _ => true
  | _ => false
  end.

Section Orchestrator.
Context {SB : Type} `{!WebContainerFs SB} `{!Browser} `{!GitEngine}.

Definition missing (what : string) : Thrown :=
  ThrowErr (TypeError (what +:+ " is not a function")).

(** One call of the engine into what it was handed. *)
Definition serve (h : Handed) (c : EngineCall) : M SB Reply :=
  match c with
  | FsReadFile path options =>
      v <-- getFs.readFile path options ;; ret (RVal v)
  | FsWriteFile path data options =>
      v <-- getFs.writeFile path data options ;; ret (RVal v)
  | FsMkdir path options =>
      v <-- getFs.mkdir path options ;; ret (RVal v)
  | FsReaddir path options =>
      l <-- getFs.readdir path options ;; ret (RListing l)
  | FsRm path options =>
      v <-- getFs.rm path options ;; ret (RVal v)
  | FsRmdir path options =>
      v <-- getFs.rmdir path options ;; ret (RVal v)
  | FsUnlink path =>
      v <-- getFs.unlink path ;; ret (RVal v)
  | FsStat path =>
      st <-- getFs.stat path ;; ret (RStat st)
  | FsLstat path =>
      st <-- getFs.lstat path ;; ret (RStat st)
  | FsReadlink path =>
      v <-- getFs.readlink path ;; ret (RVal v)
  | FsSymlink target path =>
      v <-- getFs.symlink target path ;; ret (RVal v)
  | FsChmod path mode =>
      v <-- getFs.chmod path mode ;; ret (RVal v)
  | HttpCall request =>
      if with_http h then
        n <-- tick ;;
        emit (HttpRequest request) ;;;
        v <-- lift (http_response n request) ;; ret (RVal v)
      else throw (missing "http.request")
  | HookOnAuth url =>
      if with_hooks h then a <-- onAuth url ;; ret (RAuth a)
      else throw (missing "onAuth")
  | HookOnAuthFailure url auth =>
      if with_hooks h then onAuthFailure url auth ;;; ret (RVal JUndefined)
      else throw (missing "onAuthFailure")
  | HookOnAuthSuccess url auth =>
      if with_hooks h then onAuthSuccess url auth ;;; ret (RVal JUndefined)
      else throw (missing "onAuthSuccess")
  end.

Fixpoint run {R} (h : Handed) (p : Engine R) : M SB R :=
  λ w, match p with
       | Done r => (w, Ok r)
       | Fail t => (w, Rejected t)
       | Call c k => let '(w', r) := serve h c w in run h (k r) w'
       end.

(** ** [useGit] *)

(** The effect that runs once the container promise resolves. *)
Definition boot (w : World SB) : World SB :=
  mkWorld true (workdir w) ∅ (sandbox w) (cookies w) (ticks w) (trace w).

Definition not_initialized : Thrown := ThrowStr "Webcontainer not initialized".

(** [for (const [key, value] of Object.entries(fileData.current))
    data[key] = value] *)
Definition snapshot (current : gmap string LedgerEntry)
  : gmap string LedgerEntry :=
  foldl (λ data '(key, value), <[key := value]> data) ∅ (map_to_list current).

Definition gitClone (url : string)
  : M SB (string * gmap string LedgerEntry) :=
  w <-- get_world ;;
  if negb (initialized w) then throw not_initialized
  else
    set_ledger ∅ ;;;
    headers <-- eager_headers url ;;
    try_catch
      (let args :=
         mkCloneArgs (workdir w) url 1 true "/api/git-proxy" headers in
       emit (EngineClone args) ;;;
       run network_operation (git_clone args) ;;;
       w' <-- get_world ;;
       ret (workdir w, snapshot (ledger w')))
      (λ error,
         emit (ConsoleError "Git clone error:" error) ;;; throw error).

Definition gitPush (remote branch : string) : M SB unit :=
  w <-- get_world ;;
  if negb (initialized w) then throw not_initialized
  else
    try_catch
      (let args :=
         mkPushArgs (workdir w) remote branch
                    "https://cors.isomorphic-git.org" in
       emit (EnginePush args) ;;;
       run network_operation (git_push args) ;;;
       emit (ToastSuccess
               ("Successfully pushed to " +:+ remote +:+ "/" +:+ branch)))
      (λ error,
         emit (ConsoleError "Error during git push:" error) ;;;
         emit (ToastError
                 "Failed to push changes. Check the console for more details.") ;;;
         throw error).

Definition no_remote : Thrown := ThrowStr "No remote repository found".

Definition gitPull : M SB unit :=
  w <-- get_world ;;
  if negb (initialized w) then throw not_initialized
  else
    emit (Console "log" "Webcontainer: ") ;;;
    let cargs := mkGetConfigArgs (workdir w) "remote.origin.url" in
    emit (EngineGetConfig cargs) ;;;
    remoteUrl <-- run local_operation (git_getConfig cargs) ;;
    emit (Console "log" ("remoteUrl: " +:+ Js.to_string remoteUrl)) ;;;
    if negb (Js.truthy remoteUrl) then throw no_remote
    else
      match remoteUrl with
      | JStr url =>
          headers <-- eager_headers url ;;
          try_catch
            (let args :=
               mkPullArgs (workdir w) true "/api/git-proxy" headers in
             emit (EnginePull args) ;;;
             run network_operation (git_pull args) ;;;
             emit (ToastSuccess "Git pull successful"))
            (λ error,
               emit (ConsoleError "Git pull error:" error) ;;; throw error)
      | _ => throw (missing "url.split")
      end.

(** ** Points of a run the properties speak about *)

(** The adapter serving a list of [writeFile] calls one after the other. *)
Definition write_all (calls : list (string * JsVal * JsVal))
           (w : World SB) : World SB :=
  foldl (λ w '(path, d, options), (getFs.writeFile path d options w).1)
        w calls.

(** [fileData.current = {}] *)
Definition reset_ledger (w : World SB) : World SB := (set_ledger ∅ w).1.

(** The state in which [gitClone] calls [git.clone], and the arguments
    it passes. *)
Definition clone_args (url : string) (w : World SB) : CloneArgs :=
  mkCloneArgs (workdir w) url 1 true "/api/git-proxy"
              (default ∅ (match (eager_headers url (reset_ledger w)).2 with
                          | Ok headers => Some headers
                          | Rejected _ => None
                          end)).

Definition clone_start (url : string) (w : World SB) : World SB :=
  (emit (EngineClone (clone_args url w))
        (eager_headers url (reset_ledger w)).1).1.

(** The state in which [gitPull] calls [git.getConfig]. *)
Definition config_args (w : World SB) : GetConfigArgs :=
  mkGetConfigArgs (workdir w) "remote.origin.url".

Definition config_start (w : World SB) : World SB :=
  (emit (EngineGetConfig (config_args w))
        (emit (Console "log" "Webcontainer: ") w).1).1.

Definition push_args (remote branch : string) (w : World SB) : PushArgs :=
  mkPushArgs (workdir w) remote branch "https://cors.isomorphic-git.org".


(** From [w] to [w'] the trace only grew, and by no network event. *)
Definition off_network (w w' : World SB) : Prop :=
  ∃ es, trace w' = trace w ++ es ∧ Forall (λ e, is_network e = false) es.

Definition network_events (w : World SB) : list Event :=
  filter (λ e, is_network e = true) (trace w).

End Orchestrator.

Arguments snapshot : simpl never.

(** ** A small concrete instance

    An in-memory sandbox, a scripted browser and a few engines, on which
    the definitions above run. *)

Module Demo.

(** The sandbox keeps its files by relative path and records every
    [rm] it was asked for. *)
Record Disk := mkDisk {
  files : gmap string JsVal;
  removals : list (string * gmap string JsVal);
}.

Definition no_such_file (path : string) : Thrown :=
  ThrowErr (mkJsError "Error" ("ENOENT: no such file or directory, open '" +:+ path +:+ "'")
                      (Some "ENOENT") (Some (-2)%Z) (Some "open") (Some path)).

Definition entries_of (dir : string) (d : Disk) : list Dirent :=
  omap (λ kv : string * JsVal,
          if decide (pathUtils.dirname kv.1 = dir)
          then Some (mkDirent (pathUtils.basename kv.1 None) true false)
          else None)
       (map_to_list (files d)).

#[export] Instance disk_fs : WebContainerFs Disk := {|
  wc_readFile path _ d :=
    (d, match files d !! path with
        | Some v => Ok v
        | None => Rejected (no_such_file path)
        end);
  wc_writeFile path data _ d :=
    (mkDisk (<[path := data]> (files d)) (removals d), Ok JUndefined);
  wc_mkdir _ _ d := (d, Ok JUndefined);
  wc_readdir path _ d :=
    (d, if decide (path = "missing") then Rejected (no_such_file path)
        else Ok (Dirents (entries_of path d)));
  wc_rm path options d :=
    (mkDisk (delete path (files d)) (removals d ++ [(path, options)]),
     Ok JUndefined);
|}.

(** [JSON_parse] knows the texts the examples store; the user accepts
    the first dialog and cancels the username prompt. *)
#[export] Instance browser : Browser := {|
  JSON_parse text :=
    if decide (text = "{}") then Some (JObj ∅)
    else if decide (text = "null") then Some JNull
    else None;
  JSON_stringify _ := "{}";
  base64 text := "b64(" +:+ text +:+ ")";
  user_confirm _ _ := true;
  user_prompt n _ := if decide (n = 1) then None else Some "secret";
  Date_now n := (1700000000000 + Z.of_nat n)%Z;
  http_response _ _ := Ok (JStr "200");
|}.

Definition world : World Disk :=
  mkWorld true "/home/project"
          {[ "old.txt" := mkEntry (JStr "old") (JStr "utf8") ]}
          (mkDisk {[ ".git/config" := JStr "[core]" ]} [])
          {[ "git:example.com" := "{}" ]} 0 [].

Definition utf8 : JsVal := JObj {[ "encoding" := JStr "utf8" ]}.

(** Writes one file, then fails. *)
Definition failing_clone : Engine unit :=
  Call (FsWriteFile "/home/project/README.md" (JStr "# hi") utf8)
       (λ _, Fail (ThrowStr "network down")).

(** Updates the remote-tracking ref once the push went through. *)
Definition ref_writing_push : Engine unit :=
  Call (HttpCall (JStr "POST git-receive-pack"))
       (λ _, Call (FsWriteFile "/home/project/.git/refs/remotes/origin/main"
                               (JStr "0a1b2c") utf8)
                  (λ _, Done tt)).

(** Looks at the repository and talks to the remote, writes nothing. *)
Definition read_only_push : Engine unit :=
  Call (FsStat "/home/project/.git/config")
       (λ _, Call (HookOnAuth "https://example.com/org/repo.git")
                  (λ _, Call (HttpCall (JStr "POST git-receive-pack"))
                             (λ _, Done tt))).

(** Reads [.git/config] and finds no [remote.origin.url] in it. *)
Definition config_without_remote : Engine JsVal :=
  Call (FsReadFile "/home/project/.git/config" utf8)
       (λ _, Done JUndefined).

Definition engine (clone push : Engine unit) : GitEngine := {|
  git_clone _ := clone;
  git_push _ := push;
  git_pull _ := Call (HttpCall (JStr "GET info/refs")) (λ _, Done tt);
  git_getConfig _ := config_without_remote;
|}.

End Demo.

(** ** The specification's reading of [relative]

    Written from the specification's sentence, to be compared with the
    source's [pathUtils.relative]: tokenize into non-empty segments, cut
    the longest common prefix, climb once per segment left of [from], then
    descend along what is left of [to]. *)

Module RelativeSpec.
Import JsString.

(** One left-to-right pass; [cur] is the segment being read. *)
Fixpoint segments_from (s cur : string) : list string :=
  match s with
  | "" => if is_empty cur then [] else [cur]
  | String c r =>
      if is_slash c
      then (if is_empty cur then segments_from r ""
            else cur :: segments_from r "")
      else segments_from r (cur +:+ String c "")
  end.

Definition segments (p : string) : list string := segments_from p "".

Fixpoint drop_common (xs ys : list string) : list string * list string :=
  match xs, ys with
  | x :: xs', y :: ys' =>
      if decide (x = y) then drop_common xs' ys' else (xs, ys)
  | _, _ => (xs, ys)
  end.

(** Length of the longest common prefix. *)
Fixpoint lcp_length (xs ys : list string) : nat :=
  match xs, ys with
  | x :: xs', y :: ys' =>
      if decide (x = y) then S (lcp_length xs' ys') else 0
  | _, _ => 0
  end.

Definition spec_relative (from to : string) : string :=
  let '(up, down) := drop_common (segments from) (segments to) in
  match (((λ _, "..") <$> up) ++ down)%list with
  | [] => "."
  | out => join_slash out
  end.

End RelativeSpec.

(** ** Further notions the properties use *)

(** A string without the separator. *)
Definition slash_free (seg : string) : Prop :=
  JsString.includes_slash seg = false.


(** ** The issue reporter ([gitReportIssue]) *)

(** [octokit.issues.create(...)] of a client built with a token: the
    REST client is a collaborator, known by what it is asked and what it
    answers ([response.data], or a rejection). *)
Record IssueRequest := mkIssueRequest {
  issue_auth : string;
  issue_owner : string;
  issue_repo : string;
  issue_title : string;
  issue_body : string;
  issue_labels : list string;
}.

Class Octokit := {
  issues_create : nat → IssueRequest → Res JsVal;
}.

Module Report.

(** An optional string argument or cookie is falsy when it is missing
    or empty. *)
Definition falsy (x : option string) : bool :=
  match x with
  | Some s => JsString.is_empty s
  | None => true
  end.

(** [x || y] *)
Definition or_else (x y : option string) : option string :=
  if falsy x then y else x.

(** [x || ''] *)
Definition or_empty (x : option string) : string :=
  match x with
  | Some s => s
  | None => ""
  end.

(** The request as it shows on the network. *)
Definition wire (r : IssueRequest) : JsVal :=
  JObj {[ "auth" := JStr (issue_auth r);
          "owner" := JStr (issue_owner r);
          "repo" := JStr (issue_repo r);
          "title" := JStr (issue_title r);
          "body" := JStr (issue_body r);
          "labels" := JArr (JStr <$> issue_labels r) ]}.

End Report.

Section IssueReporter.
Context {SB : Type} `{!Browser} `{!Octokit}.

(** [alert(text)]: a dialog without an answer; it is recorded in the
    trace under the level [alert]. *)
Definition alert (text : string) : M SB unit :=
  emit (Console "alert" text).

Definition create_issue (r : IssueRequest) : M SB JsVal :=
  n <-- tick ;;
  emit (HttpRequest (Report.wire r)) ;;;
  lift (issues_create n r).

Definition gitReportIssue (repoName issueTitle : string)
           (githubUsername ghToken issueBody : option string) : M SB JsVal :=
  if JsString.is_empty repoName
  then throw (ThrowErr (new_Error "Repository name is required."))
  else
    try_catch
      (w <-- get_world ;;
       let username :=
         Report.or_else githubUsername (cookies w !! "githubUsername") in
       let token := Report.or_else ghToken (cookies w !! "githubToken") in
       credentials <--
         (if Report.falsy username || Report.falsy token then
            u <-- prompt "Please enter your GitHub username:" ;;
            t <-- prompt "Please enter your GitHub personal access token:" ;;
            ret (Some (Report.or_empty u), Some (Report.or_empty t))
          else ret (username, token)) ;;
       let '(username, token) := credentials in
       if Report.falsy username || Report.falsy token then
         alert "GitHub username and token are required. Issue reporting cancelled." ;;;
         ret JNull
       else
         data <-- create_issue
           (mkIssueRequest (Report.or_empty token) (Report.or_empty username)
              repoName issueTitle
              (Report.or_empty
                 (Report.or_else issueBody (Some "No description provided.")))
              ["bug"]) ;;
         emit (ToastSuccess "Issue reported successfully!") ;;;
         ret data)
      (λ error,
         emit (ConsoleError "Error reporting to GitHub:" error) ;;;
         emit (ToastError
                 "Failed to report issue. Check the console for more details.") ;;;
         ret JNull).

End IssueReporter.


(** A sandbox that lists, reads and refuses every change. *)
Module ReadOnly.

Definition refused (path : string) : Thrown :=
  ThrowErr (mkJsError "Error" ("EROFS: read-only file system, open '" +:+ path +:+ "'")
                      (Some "EROFS") (Some (-30)%Z) (Some "open") (Some path)).

Definition fs : WebContainerFs Demo.Disk := {|
  wc_readFile := @wc_readFile _ Demo.disk_fs;
  wc_writeFile path _ _ d := (d, Rejected (refused path));
  wc_mkdir path _ d := (d, Rejected (refused path));
  wc_readdir := @wc_readdir _ Demo.disk_fs;
  wc_rm path _ d := (d, Rejected (refused path));
|}.

End ReadOnly.

(** A container that has not come up yet. *)
Definition asleep : World Demo.Disk :=
  mkWorld false "/home/project" ∅ (Demo.mkDisk ∅ []) ∅ 0 [].

(** A tracker that files every issue under the number 7. *)
Module Tracker.

Definition filing : Octokit := {|
  issues_create _ r := Ok (JObj {[ "number" := JNum "7";
                                   "title" := JStr (issue_title r) ]});
|}.

Definition down : Octokit := {|
  issues_create _ _ := Rejected (ThrowStr "503");
|}.

End Tracker.

(** ** The relative path by its segments

    What the specification's computation of [relative] yields before
    joining, and what [stat] then lists and looks for. *)

Definition relative_parts (from to : string) : list string :=
  if JsString.is_empty from || JsString.is_empty to then []
  else
    let '(up, down) :=
      RelativeSpec.drop_common (RelativeSpec.segments from)
                               (RelativeSpec.segments to) in
    ((λ _, "..") <$> up) ++ down.

(** The segments joined by the separator; '.' when there are none. *)
Definition joined (parts : list string) : string :=
  match parts with
  | [] => "."
  | _ => JsString.join_slash parts
  end.

(** All segments but the last, joined; '.' when there are none. *)
Definition listed_directory (parts : list string) : string :=
  match removelast parts with
  | [] => "."
  | ds => JsString.join_slash ds
  end.

(** The last segment; '.' when there is none. *)
Definition looked_up_name (parts : list string) : string :=
  default "." (last parts).

(** ** The calls of one run *)

Section Calls.
Context {SB : Type} `{!WebContainerFs SB} `{!Browser} `{!GitEngine}.

(** The calls the engine makes, in order, in the run that starts in
    [w]: each call is answered as [run] answers it. *)
Fixpoint calls_made {R} (h : Handed) (p : Engine R) (w : World SB)
  : list EngineCall :=
  match p with
  | Done _ | Fail _ => []
  | Call c k => c :: (let '(w', r) := serve h c w in calls_made h (k r) w')
  end.

(** The calls the engine makes during [gitPush(remote, branch)]. *)
Definition push_calls (remote branch : string) (w : World SB)
  : list EngineCall :=
  if initialized w
  then calls_made network_operation (git_push (push_args remote branch w))
                  (emit (EnginePush (push_args remote branch w)) w).1
  else [].

End Calls.

(** What one call leaves in the ledger: a [writeFile] that passes an
    options value records its entry, everything else records nothing. *)
Definition recorded (workdir : string) (current : gmap string LedgerEntry)
           (c : EngineCall) : gmap string LedgerEntry :=
  match c with
  | FsWriteFile path d options =>
      match Js.get options "encoding" with
      | Ok enc =>
          getFs.record_set (pathUtils.relative workdir path) (mkEntry d enc)
                           current
      | Rejected _ => current
      end
  | _ => current
  end.

(** ** A serializer and a parser for flat objects

    [JSON.stringify] and [JSON.parse] restricted to objects whose
    values are strings without quotes or backslashes, which is the shape
    of a stored credential, to [null] and to the natural numbers. *)

Module FlatJson.

Definition quote : ascii := "034"%char.

Definition q : string := String quote "".

Definition member (kv : string * JsVal) : option string :=
  match kv.2 with
  | JStr v => Some (q +:+ kv.1 +:+ q +:+ ":" +:+ q +:+ v +:+ q)
  | _ => None
  end.

Definition stringify (v : JsVal) : string :=
  match v with
  | JObj fields =>
      "{" +:+ String.concat "," (omap member (map_to_list fields)) +:+ "}"
  | _ => "null"
  end.

Fixpoint split_quote (s : string) : list string :=
  match s with
  | "" => [""]
  | String c r =>
      if bool_decide (c = quote) then "" :: split_quote r
      else match split_quote r with
           | [] => [String c ""]
           | h :: t => String c h :: t
           end
  end.

Fixpoint members (pieces : list string) (acc : gmap string JsVal)
  : option JsVal :=
  match pieces with
  | k :: sep :: v :: close :: rest =>
      if bool_decide (sep = ":") then
        if bool_decide (close = "}" ∧ rest = [])
        then Some (JObj (<[k := JStr v]> acc))
        else if bool_decide (close = ",")
             then members rest (<[k := JStr v]> acc)
             else None
      else None
  | _ => None
  end.

(** A non-empty run of decimal digits without a leading zero. *)
Fixpoint digits (s : string) : bool :=
  match s with
  | "" => true
  | String c r =>
      bool_decide (48 ≤ nat_of_ascii c ≤ 57) && digits r
  end.

Definition is_number (s : string) : bool :=
  match s with
  | "" => false
  | String c r =>
      digits s && (bool_decide (c ≠ "0"%char) || JsString.is_empty r)
  end.

Definition parse (text : string) : option JsVal :=
  match split_quote text with
  | [whole] =>
      if bool_decide (whole = "{}") then Some (JObj ∅)
      else if bool_decide (whole = "null") then Some JNull
      else if is_number whole then Some (JNum whole)
      else None
  | open :: pieces =>
      if bool_decide (open = "{") then members pieces ∅ else None
  | [] => None
  end.

End FlatJson.

(** A browser that is off the network, with nobody in front of it, and
    with the flat serializer and parser. *)
Module Offline.

Definition browser : Browser := {|
  JSON_parse := FlatJson.parse;
  JSON_stringify := FlatJson.stringify;
  base64 text := "b64(" +:+ text +:+ ")";
  user_confirm _ _ := false;
  user_prompt _ _ := None;
  Date_now n := (1700000000000 + Z.of_nat n)%Z;
  http_response _ _ := Rejected (ThrowStr "offline");
|}.

(** Sends the pack and updates the remote-tracking ref once the
    remote has accepted it. *)
Definition push_then_update_ref : Engine unit :=
  Call (HttpCall (JStr "POST git-receive-pack"))
       (λ reply,
          match reply with
          | Ok _ =>
              Call (FsWriteFile "/home/project/.git/refs/remotes/origin/main"
                                (JStr "0a1b2c") Demo.utf8)
                   (λ _, Done tt)
          | Rejected t => Fail t
          end).

Definition alice : JsVal :=
  JObj {[ "username" := JStr "alice"; "password" := JStr "secret" ]}.

End Offline.

(** * Properties *)

Example relative_child : pathUtils.relative "/a/b" "/a/b/c" = "c".
Proof. reflexivity. Qed.
Example relative_up : pathUtils.relative "/a/b/" "/a//x/y" = "../x/y".
Proof. reflexivity. Qed.
Example dirname_ex : pathUtils.dirname ".git/refs/heads/" = ".git/refs".
Proof. reflexivity. Qed.
Example dirname_ex2 : pathUtils.dirname "/a" = "/".
Proof. reflexivity. Qed.
Example basename_ex : pathUtils.basename ".git/config/" None = "config".
Proof. reflexivity. Qed.
Example basename_ex2 : pathUtils.basename "a/b.txt" (Some ".txt") = "b".
Proof. reflexivity. Qed.

(** ** Path algebra *)

Section PathAlgebra.
Import JsString pathUtils RelativeSpec.

Lemma split_slash_nonempty s : split_slash s ≠ [].
Proof. destruct s as [|c r]; simpl; [done|]. by repeat case_match. Qed.

Lemma split_strip_trailing s :
  ∃ k, split_slash s = split_slash (strip_trailing_slashes s) ++ replicate k "".
Proof.
  induction s as [|c r [k IH]]; [by exists 0|].
  simpl. destruct (is_slash c) eqn:Hc; simpl.
  - destruct (is_empty (strip_trailing_slashes r)) eqn:He.
    + destruct (strip_trailing_slashes r); [|done].
      exists (S k). by rewrite IH.
    + exists k. simpl. rewrite Hc. by rewrite IH.
  - exists k. simpl. rewrite Hc, IH.
    pose proof (split_slash_nonempty (strip_trailing_slashes r)).
    by destruct (split_slash (strip_trailing_slashes r)).
Qed.

Lemma filter_nonempty_replicate (l : list string) k :
  filter (λ seg, is_empty seg = false) (l ++ replicate k "") =
  filter (λ seg, is_empty seg = false) l.
Proof.
  rewrite filter_app. induction k as [|k IH]; simpl.
  - by rewrite app_nil_r.
  - by rewrite filter_cons_False.
Qed.

Lemma append_empty_r (s : string) : s +:+ "" = s.
Proof.
  induction s as [|c s IH]; [done|].
  change (String c (s +:+ "") = String c s). by rewrite IH.
Qed.

Lemma append_assoc (a b c : string) : (a +:+ b) +:+ c = a +:+ (b +:+ c).
Proof.
  induction a as [|x a IH]; [done|].
  change (String x ((a +:+ b) +:+ c) = String x (a +:+ (b +:+ c))).
  by rewrite IH.
Qed.

Lemma is_empty_append_cons a c r : is_empty (a +:+ String c r) = false.
Proof. by destruct a. Qed.

Lemma segments_from_split s cur :
  segments_from s cur =
  filter (λ seg, is_empty seg = false)
         (match split_slash s with
          | h :: t => (cur +:+ h) :: t
          | [] => [cur]
          end).
Proof.
  revert cur. induction s as [|c r IH]; intros cur; simpl.
  - rewrite append_empty_r. by destruct cur.
  - destruct (is_slash c); simpl.
    + rewrite append_empty_r, (IH "").
      pose proof (split_slash_nonempty r).
      destruct (split_slash r) as [|h t]; [done|]. simpl.
      by destruct cur.
    + rewrite IH.
      pose proof (split_slash_nonempty r).
      destruct (split_slash r) as [|h t]; [done|].
      by rewrite append_assoc.
Qed.

Lemma normalizePathParts_segments p : normalizePathParts p = segments p.
Proof.
  unfold normalizePathParts, segments.
  destruct (split_strip_trailing p) as [k Hk].
  rewrite segments_from_split, Hk.
  pose proof (split_slash_nonempty (strip_trailing_slashes p)).
  destruct (split_slash (strip_trailing_slashes p)) as [|h t]; [done|].
  simpl. change ("" +:+ h) with h.
  by rewrite app_comm_cons, filter_nonempty_replicate.
Qed.

Lemma common_loop_lcp (xs ys pre1 pre2 : list string) c :
  length pre1 = length pre2 →
  common_loop (pre1 ++ xs) (pre2 ++ ys)
              (length xs `min` length ys) (length pre1) c
  = c + lcp_length xs ys.
Proof.
  revert ys pre1 pre2 c.
  induction xs as [|x xs IH]; intros [|y ys] pre1 pre2 c Hlen; simpl; try lia.
  rewrite list_lookup_middle by done.
  rewrite list_lookup_middle by done.
  destruct (decide (x = y)) as [->|Hne].
  - rewrite bool_decide_eq_false_2 by (intros ?; congruence).
    rewrite (cons_middle y pre1), (cons_middle y pre2), !app_assoc.
    replace (S (length pre1)) with (length (pre1 ++ [y]))
      by (rewrite length_app; simpl; lia).
    rewrite IH by (rewrite !length_app; simpl; lia). lia.
  - rewrite bool_decide_eq_true_2 by congruence. lia.
Qed.

Lemma drop_common_lcp xs ys :
  drop_common xs ys =
  (drop (lcp_length xs ys) xs, drop (lcp_length xs ys) ys).
Proof.
  revert ys. induction xs as [|x xs IH]; intros [|y ys]; simpl; try done.
  destruct (decide (x = y)); [apply IH|done].
Qed.

Lemma lcp_length_le xs ys : lcp_length xs ys ≤ length xs.
Proof.
  revert ys. induction xs as [|x xs IH]; intros [|y ys]; simpl; try lia.
  destruct (decide (x = y)); [specialize (IH ys)|]; lia.
Qed.

Lemma fmap_const_replicate {A B} (b : B) (l : list A) :
  (λ _, b) <$> l = replicate (length l) b.
Proof. induction l as [|a l IH]; [done|]. by rewrite fmap_cons, IH. Qed.

Lemma relative_nonempty_spec from to :
  is_empty from = false → is_empty to = false →
  relative from to = spec_relative from to.
Proof.
  intros Hf Ht. unfold relative, spec_relative.
  rewrite Hf, Ht. simpl.
  rewrite !normalizePathParts_segments.
  pose proof (common_loop_lcp (segments from) (segments to) [] [] 0 eq_refl)
    as Hloop.
  simpl in Hloop. rewrite Hloop, drop_common_lcp.
  rewrite fmap_const_replicate, length_drop.
  by destruct (replicate _ ".." ++ _).
Qed.

(** C1, as the code has it. [relative] answers '.' when either path is
    the empty string; on two non-empty paths it is the specification's
    computation: segments, longest common prefix, one '..' per segment
    left of [from], then what is left of [to], joined by '/', and '.'
    when nothing is left. In particular [relative "/a/b" "/a/b/c"] is
    "c". *)
Theorem relative_guarded_refines_spec from to :
  relative from to =
    (if is_empty from || is_empty to then "."
     else spec_relative from to)
  ∧ relative "/a/b" "/a/b/c" = "c".
Proof.
  split; [|reflexivity].
  destruct (is_empty from) eqn:Hf; [by destruct from|].
  destruct (is_empty to) eqn:Ht; [by destruct from, to|].
  by apply relative_nonempty_spec.
Qed.

End PathAlgebra.

(** ** The filesystem adapter *)

Ltac unfold_m :=
  unfold getFs.lstat in *;
  unfold getFs.readFile, getFs.writeFile, getFs.mkdir, getFs.readdir,
    getFs.rm, getFs.rmdir, getFs.unlink, getFs.stat,
    getFs.readlink, getFs.symlink, getFs.chmod, getFs.relativePath_of,
    onAuth, onAuthFailure, onAuthSuccess, saveGitAuth, lookupSavedPassword,
    eager_headers, confirm, prompt,
    bind, ret, throw, try_catch, lift, emit, tick, set_ledger, set_cookies,
    get_world, on_sandbox in *.

(** Case analysis on what the sandbox answered. *)
Ltac sandbox_cases :=
  repeat match goal with
    | |- context [wc_readFile ?a ?b ?c] =>
        destruct (wc_readFile a b c) as [? [?|?]]; simpl
    | |- context [wc_writeFile ?a ?b ?c ?d] =>
        destruct (wc_writeFile a b c d) as [? [?|?]]; simpl
    | |- context [wc_mkdir ?a ?b ?c] =>
        destruct (wc_mkdir a b c) as [? [?|?]]; simpl
    | |- context [wc_readdir ?a ?b ?c] =>
        destruct (wc_readdir a b c) as [? [?|?]]; simpl
    | |- context [wc_rm ?a ?b ?c] =>
        destruct (wc_rm a b c) as [? [?|?]]; simpl
    end.

Ltac option_cases :=
  repeat match goal with
    | |- context [match ?x with Some _ => _ | None => _ end] =>
        destruct x; simpl
    end.

Ltac crunch := unfold_m; simpl; sandbox_cases; try done.

Section AdapterProperties.
Context {SB : Type} `{!WebContainerFs SB} `{!Browser}.
Implicit Types (w : World SB) (path : string) (options : JsVal).

Lemma find_entry_name resp target fileInfo :
  getFs.find_entry resp target = Some fileInfo → name fileInfo = target.
Proof.
  destruct resp as [l|l]; simpl; [done|].
  destruct (list_find _ l) as [[i x]|] eqn:Hfind; simpl; [|done].
  intros [= <-]. by apply list_find_Some in Hfind as (_ & ? & _).
Qed.

(** C3, as the code has it. [rmdir] hands the sandbox's remove the
    translated path and the caller's options, to which [recursive: true]
    is added only when the caller gave no [recursive] of its own. *)
Theorem rmdir_recursive_is_a_default path options w key :
  getFs.rmdir path options w =
    on_sandbox (wc_rm (pathUtils.relative (workdir w) path)
                      (getFs.rmdir_options options)) w
  ∧ getFs.rmdir_options options !! key =
      if decide (key = "recursive")
      then Some (default (JBool true) (Js.spread options !! "recursive"))
      else Js.spread options !! key.
Proof.
  split.
  - by crunch.
  - unfold getFs.rmdir_options. rewrite lookup_union.
    destruct (decide (key = "recursive")) as [->|Hne].
    + rewrite lookup_singleton_eq. by destruct (Js.spread options !! _).
    + rewrite lookup_singleton_ne by done.
      by destruct (Js.spread options !! key).
Qed.

(** C5, what the code does. For every input [readlink] and [symlink]
    are rejected and [chmod] resolves; the two rejections are errors
    that carry a message only: none of [code], [errno], [syscall] and
    [path] is set on them. *)
Theorem link_errors_carry_a_message_only path target mode w :
  ∃ e1 e2,
    getFs.readlink path w = (w, Rejected (ThrowErr e1)) ∧
    getFs.symlink target path w = (w, Rejected (ThrowErr e2)) ∧
    getFs.chmod path mode w = (w, Ok JUndefined) ∧
    err_message e1 = "EINVAL: invalid argument, readlink '" +:+ path +:+ "'" ∧
    err_message e2 = "EPERM: operation not permitted, symlink '" +:+ target
                       +:+ "' -> '" +:+ path +:+ "'" ∧
    (err_code e1, err_errno e1, err_syscall e1, err_path e1)
      = (None, None, None, None) ∧
    (err_code e2, err_errno e2, err_syscall e2, err_path e2)
      = (None, None, None, None).
Proof. by eexists _, _. Qed.

End AdapterProperties.

(** ** The write ledger *)

Section LedgerProperties.
Context {SB : Type} `{!WebContainerFs SB} `{!Browser} `{!GitEngine}.
Implicit Types (w : World SB) (path : string) (options : JsVal).

Lemma snapshot_foldl (l : list (string * LedgerEntry)) :
  NoDup l.*1 →
  foldl (λ data '(key, value), <[key := value]> data) ∅ l
  = (list_to_map l : gmap string LedgerEntry).
Proof.
  induction l as [|[k v] l IH] using rev_ind; [done|].
  rewrite fmap_app, NoDup_app. intros (Hl & Hk & _).
  rewrite foldl_snoc, IH by done.
  rewrite list_to_map_snoc; [done|].
  intros Hin. apply (Hk k Hin). by apply list_elem_of_singleton.
Qed.

(** The copy loop of [gitClone] yields the ledger it copies. *)
Lemma snapshot_id (current : gmap string LedgerEntry) :
  snapshot current = current.
Proof.
  unfold snapshot. rewrite snapshot_foldl by apply NoDup_fst_map_to_list.
  apply list_to_map_to_list.
Qed.

Lemma writeFile_ledger path d options enc w :
  Js.get options "encoding" = Ok enc →
  ledger (getFs.writeFile path d options w).1
  = getFs.record_set (pathUtils.relative (workdir w) path) (mkEntry d enc)
                     (ledger w)
  ∧ workdir (getFs.writeFile path d options w).1 = workdir w.
Proof. intros Hget. unfold_m. rewrite Hget. by crunch. Qed.

Lemma writeFile_workdir path d options w :
  workdir (getFs.writeFile path d options w).1 = workdir w.
Proof. unfold_m. destruct (Js.get options _); by crunch. Qed.

Lemma write_all_workdir calls w : workdir (write_all calls w) = workdir w.
Proof.
  revert w. induction calls as [|[[p d] o] calls IH]; intros w; [done|].
  change (workdir (write_all calls (getFs.writeFile p d o w).1) = workdir w).
  by rewrite IH, writeFile_workdir.
Qed.

Lemma writeFile_no_options path d options t w :
  Js.get options "encoding" = Rejected t →
  getFs.writeFile path d options w = (w, Rejected t).
Proof. intros Hget. unfold getFs.writeFile, bind, lift. by rewrite Hget. Qed.

Lemma only_entry_for_key (m : gmap string LedgerEntry) key entry :
  m !! key = Some entry →
  filter (λ kv, kv.1 = key) (map_to_list m) = [(key, entry)].
Proof.
  intros Hlook. pose proof (NoDup_fst_map_to_list m) as Hnodup.
  apply elem_of_map_to_list in Hlook.
  revert Hnodup Hlook. generalize (map_to_list m).
  intros l. induction l as [|[k v] l IH]; intros Hnodup Hin.
  - by apply elem_of_nil in Hin.
  - rewrite fmap_cons, NoDup_cons in Hnodup. destruct Hnodup as [Hk Hnodup].
    apply elem_of_cons in Hin as [Heq|Hin].
    + injection Heq as <- <-. rewrite filter_cons_True by done. f_equal.
      apply elem_of_nil_inv. intros [k' v'] [Hk' Hin']%list_elem_of_filter.
      simpl in Hk'. subst k'. apply Hk. apply list_elem_of_fmap.
      by exists (key, v').
    + rewrite filter_cons_False; [by apply IH|].
      simpl. intros ->. apply Hk. apply list_elem_of_fmap.
      by exists (key, entry).
Qed.

(** C6, what the code does. Whatever [writeFile] calls came before,
    take [writeFile(p, d)] followed by [writeFile(p, d2)]. When the
    later call passes an options value and the relative path of [p] is
    not [__proto__], the snapshot holds the entry of value [d2] under
    that path and lists no other entry for it. When the relative path is
    [__proto__], neither call leaves an entry: the ledger is what it was
    before the two. A later call without an options value records
    nothing. In every case no path is listed twice. *)
Theorem ledger_last_write_wins calls path d options d2 options2 w :
  let w0 := write_all calls w in
  let w1 := (getFs.writeFile path d options w0).1 in
  let w' := (getFs.writeFile path d2 options2 w1).1 in
  let relativePath := pathUtils.relative (workdir w) path in
  match Js.get options2 "encoding" with
  | Ok enc2 =>
      if decide (relativePath = "__proto__")
      then ledger w' = ledger w0
      else snapshot (ledger w') !! relativePath = Some (mkEntry d2 enc2)
           ∧ filter (λ kv, kv.1 = relativePath)
                    (map_to_list (snapshot (ledger w')))
             = [(relativePath, mkEntry d2 enc2)]
  | Rejected _ => ledger w' = ledger w1
  end
  ∧ NoDup (map_to_list (snapshot (ledger w'))).*1.
Proof.
  intros w0 w1 w' relativePath.
  split; [|rewrite snapshot_id; apply NoDup_fst_map_to_list].
  assert (workdir w1 = workdir w) as Hwd1
    by (subst w1 w0; by rewrite writeFile_workdir, write_all_workdir).
  destruct (Js.get options2 "encoding") as [enc2|t2] eqn:Hget2.
  - destruct (writeFile_ledger path d2 options2 enc2 w1 Hget2) as [Hl _].
    fold w' in Hl. rewrite Hwd1 in Hl. fold relativePath in Hl.
    unfold getFs.record_set in Hl.
    destruct (decide (relativePath = "__proto__")) as [Hproto|Hproto].
    + rewrite Hl. subst w1.
      destruct (Js.get options "encoding") as [enc|t] eqn:Hget.
      * destruct (writeFile_ledger path d options enc w0 Hget) as [-> _].
        subst w0. rewrite write_all_workdir. fold relativePath.
        unfold getFs.record_set. by rewrite decide_True.
      * by rewrite (writeFile_no_options _ _ _ _ _ Hget).
    + assert (ledger w' !! relativePath = Some (mkEntry d2 enc2)) as Hlook
        by (rewrite Hl; apply lookup_insert_eq).
      rewrite snapshot_id. split; [done|]. by apply only_entry_for_key.
  - subst w'. by rewrite (writeFile_no_options _ _ _ _ _ Hget2).
Qed.

End LedgerProperties.

(** ** Credentials and the auth hooks *)

Section AuthProperties.
Context {SB : Type} `{!WebContainerFs SB} `{!Browser}.
Implicit Types (w : World SB) (url : string).

(** A lookup reads the cookie and may write to the console; nothing
    else changes. *)
Lemma lookupSavedPassword_frame url w :
  ∃ es,
    (lookupSavedPassword url w).1 =
      mkWorld (initialized w) (workdir w) (ledger w) (sandbox w)
              (cookies w) (ticks w) (trace w ++ es)
    ∧ Forall (λ e, is_network e = false) es
    ∧ ∃ found, (lookupSavedPassword url w).2 = Ok found.
Proof.
  assert (∀ A (r : Res A), ∃ es,
    (w, r).1 = mkWorld (initialized w) (workdir w) (ledger w) (sandbox w)
                       (cookies w) (ticks w) (trace w ++ es)
    ∧ Forall (λ e, is_network e = false) es) as Hsame.
  { intros. exists []. rewrite app_nil_r. by destruct w. }
  unfold_m. simpl.
  destruct (cookies w !! _) as [gitCreds|]; simpl;
    [|destruct (Hsame _ (Ok tt)) as (es & ? & ?); eauto 6].
  destruct (JsString.is_empty gitCreds); simpl;
    [destruct (Hsame _ (Ok tt)) as (es & ? & ?); eauto 6|].
  destruct (JSON_parse gitCreds) as [v|]; simpl;
    [|eexists; split; [done|split; [by repeat constructor|eauto]]].
  destruct (Js.get v "username"), (Js.get v "password"); simpl;
    first [ by destruct (Hsame _ (Ok tt)) as (es & ? & ?); eauto 6
          | eexists; split; [done|split; [by repeat constructor|eauto]] ].
Qed.

(** C9, as the code has it. A stored value that parses to anything
    but [null] is a found credential, whatever keys it has: an object,
    and a number, a string, a boolean or an array as well. The lookup
    returns the value's [username] and [password], [undefined] where
    there is none; [onAuth] supplies that credential without asking, and
    the eager header is computed from it. A stored [null] is valid JSON
    too, and is no credential: the lookup returns none. *)
Theorem keyless_cookie_is_a_credential url text v w :
  cookies w !! ("git:" +:+ domain_of url) = Some text →
  JsString.is_empty text = false →
  JSON_parse text = Some v →
  match v with
  | JNull | JUndefined => (lookupSavedPassword url w).2 = Ok None
  | _ =>
      let c := mkCredential (Js.get_opt v "username")
                            (Js.get_opt v "password") in
      lookupSavedPassword url w = (w, Ok (Some c))
      ∧ onAuth url w = (w, Ok (Supplied c))
      ∧ eager_headers url w =
          (w, Ok (<["Authorization" :=
                      "Basic " +:+ base64 (Js.to_string (username c) +:+ ":" +:+
                                           Js.to_string (password c))]>
                    {[ "User-Agent" := "bolt.diy" ]}))
  end.
Proof.
  intros Hcookie Hne Hparse.
  assert (∀ c,
    Js.get v "username" = Ok (username c) →
    Js.get v "password" = Ok (password c) →
    lookupSavedPassword url w = (w, Ok (Some c))
    ∧ onAuth url w = (w, Ok (Supplied c))
    ∧ eager_headers url w =
        (w, Ok (<["Authorization" :=
                    "Basic " +:+ base64 (Js.to_string (username c) +:+ ":" +:+
                                         Js.to_string (password c))]>
                  {[ "User-Agent" := "bolt.diy" ]}))) as Hfound.
  { intros [u p] Hu Hp. simpl in *.
    assert (lookupSavedPassword url w = (w, Ok (Some (mkCredential u p))))
      as Hlookup.
    { unfold lookupSavedPassword, bind, get_world, ret. simpl.
      by rewrite Hcookie, Hne, Hparse, Hu, Hp. }
    split; [done|]. split.
    - unfold onAuth, bind. by rewrite Hlookup.
    - unfold eager_headers, bind. by rewrite Hlookup. }
  destruct v; try (by apply (Hfound (mkCredential _ _)));
    unfold lookupSavedPassword, bind, get_world, ret, emit; simpl;
    by rewrite Hcookie, Hne, Hparse.
Qed.


End AuthProperties.

(** ** Clone, push and pull *)

Section OrchestratorProperties.
Context {SB : Type} `{!WebContainerFs SB} `{!Browser} `{!GitEngine}.
Implicit Types (w : World SB) (url path : string) (c : EngineCall).

Lemma onAuth_ledger url w : ledger (onAuth url w).1 = ledger w.
Proof.
  destruct (lookupSavedPassword_frame url w) as (es & Hw & _ & found & Hr).
  unfold onAuth, bind.
  destruct (lookupSavedPassword url w) as [w1 r]. simpl in *. subst w1 r.
  destruct found as [c|]; [done|].
  unfold confirm, prompt, bind, tick, emit, ret. simpl.
  by destruct (user_confirm _ _).
Qed.

Lemma eager_headers_frame url w :
  ∃ es headers,
    eager_headers url w =
      (mkWorld (initialized w) (workdir w) (ledger w) (sandbox w)
               (cookies w) (ticks w) (trace w ++ es), Ok headers)
    ∧ Forall (λ e, is_network e = false) es.
Proof.
  destruct (lookupSavedPassword_frame url w) as (es & Hw & Hes & found & Hr).
  unfold eager_headers, bind.
  destruct (lookupSavedPassword url w) as [w1 r]. simpl in *. subst w1 r.
  exists es. destruct found; unfold ret; eauto.
Qed.

(** Every adapter operation but [writeFile], the transport and the
    hooks leave the ledger alone. *)
Lemma serve_ledger h c w :
  is_writeFile c = false → ledger (serve h c w).1 = ledger w.
Proof.
  intros Hc. destruct c; simpl in Hc; try discriminate; simpl.
  - by crunch.
  - by crunch.
  - by crunch.
  - by crunch.
  - by crunch.
  - by crunch.
  - crunch. by option_cases.
  - crunch. by option_cases.
  - by crunch.
  - by crunch.
  - by crunch.
  - destruct (with_http h); [|done]. crunch. by destruct (http_response _ _).
  - destruct (with_hooks h); [|done]. unfold bind.
    pose proof (onAuth_ledger url w).
    by destruct (onAuth url w) as [w1 [a|t]].
  - destruct (with_hooks h); by crunch.
  - destruct (with_hooks h); by crunch.
Qed.

(** *** The trace *)

Lemma off_network_refl w : off_network w w.
Proof. exists []. by rewrite app_nil_r. Qed.

Lemma off_network_trans w1 w2 w3 :
  off_network w1 w2 → off_network w2 w3 → off_network w1 w3.
Proof.
  intros (es1 & H1 & F1) (es2 & H2 & F2). exists (es1 ++ es2).
  rewrite H2, H1, app_assoc. split; [done|by apply Forall_app].
Qed.

Lemma off_network_events w w' :
  off_network w w' → network_events w' = network_events w.
Proof.
  intros (es & Htrace & Hes). unfold network_events.
  rewrite Htrace, filter_app.
  replace (filter _ es) with (@nil Event); [by rewrite app_nil_r|].
  symmetry. clear Htrace. induction Hes as [|e es He _ IH]; [done|].
  rewrite filter_cons_False by (rewrite He; done). done.
Qed.

Ltac quiet :=
  first [ by apply off_network_refl
        | by (exists []; simpl; rewrite app_nil_r)
        | by (eexists [_]; simpl; split; [done|repeat constructor]) ].

(** What [getConfig] can reach, the adapter alone, never touches the
    network. *)
Lemma serve_local_off_network c w :
  off_network w (serve local_operation c w).1.
Proof.
  destruct c; simpl; try quiet.
  - crunch; quiet.
  - unfold_m. destruct (Js.get options "encoding"); crunch; quiet.
  - crunch; quiet.
  - crunch; quiet.
  - crunch; quiet.
  - crunch; quiet.
  - crunch; quiet.
  - crunch; option_cases; quiet.
  - crunch; option_cases; quiet.
Qed.

Lemma run_local_off_network {R} (p : Engine R) w :
  off_network w (run local_operation p w).1.
Proof.
  revert w. induction p as [r|t|c k IH]; intros w;
    [apply off_network_refl..|].
  simpl. pose proof (serve_local_off_network c w) as Hs.
  destruct (serve local_operation c w) as [w' r]. simpl in Hs.
  eapply off_network_trans; [done|apply IH].
Qed.

(** C8. Once the container is ready: if [git.getConfig] finds no
    [remote.origin.url] (it resolves to [undefined], or to any falsy
    value), [gitPull] is rejected with 'No remote repository found',
    and up to that point neither the engine's pull was started nor a
    request sent. *)
Theorem pull_without_remote_stops_before_network w w1 v :
  initialized w = true →
  run local_operation (git_getConfig (config_args w)) (config_start w)
    = (w1, Ok v) →
  Js.truthy v = false →
  (gitPull w).2 = Rejected (ThrowStr "No remote repository found")
  ∧ network_events (gitPull w).1 = network_events w.
Proof.
  intros Hready Hconfig Hfalsy.
  pose proof (run_local_off_network (git_getConfig (config_args w))
                (config_start w)) as Hquiet.
  unfold gitPull, bind, get_world. simpl. rewrite Hready. simpl.
  unfold config_start, config_args, emit in *. simpl in *.
  rewrite Hconfig in *. simpl in *. rewrite Hfalsy. simpl.
  split; [done|]. apply off_network_events.
  destruct Hquiet as (es & Htrace & Hes).
  exists ([Console "log" "Webcontainer: ";
           EngineGetConfig (mkGetConfigArgs (workdir w) "remote.origin.url")]
          ++ es ++ [Console "log" ("remoteUrl: " +:+ Js.to_string v)]).
  simpl in *. rewrite Htrace, <- !app_assoc. simpl. split; [done|].
  repeat apply Forall_cons_2; [done..|].
  apply Forall_app. split; [done|]. by repeat constructor.
Qed.

(** C7, as the code has it. A run on a container that is not ready is
    rejected at once and leaves the ledger as it was. Otherwise the
    ledger is emptied before the engine starts, so the outcome does not
    depend on what it held; a clone that succeeds returns the working
    directory and the ledger's content; a clone that fails returns the
    engine's error and no snapshot, and the ledger keeps what the
    engine wrote up to the failure. *)
Theorem clone_resets_then_reports url w :
  if initialized w then
    ledger (clone_start url w) = ∅
    ∧ gitClone url w = gitClone url (reset_ledger w)
    ∧ match run network_operation (git_clone (clone_args url w))
                (clone_start url w) with
      | (w1, Ok _) => gitClone url w = (w1, Ok (workdir w, ledger w1))
      | (w1, Rejected t) =>
          (gitClone url w).2 = Rejected t
          ∧ ledger (gitClone url w).1 = ledger w1
      end
  else gitClone url w = (w, Rejected (ThrowStr "Webcontainer not initialized")).
Proof.
  destruct (initialized w) eqn:Hready; last first.
  { unfold gitClone, bind, get_world. simpl. rewrite Hready. reflexivity. }
  split; [|split].
  - unfold clone_start, reset_ledger.
    destruct (eager_headers_frame url (set_ledger ∅ w).1)
      as (es & headers & -> & _). reflexivity.
  - destruct w. simpl in Hready. subst. reflexivity.
  - destruct w as [ini wd led sb ck tk tr]. simpl in Hready. subst ini.
    destruct (eager_headers_frame url (mkWorld true wd ∅ sb ck tk tr))
      as (es & headers & Hheaders & _).
    simpl in Hheaders.
    unfold clone_start, clone_args, reset_ledger, gitClone, set_ledger,
      bind, get_world, emit, try_catch, ret, throw.
    simpl. rewrite !Hheaders. simpl.
    match goal with
    | |- context [run ?h ?p ?w0] => destruct (run h p w0) as [w1 [[]|t]]
    end; simpl; [by rewrite snapshot_id|done].
Qed.

End OrchestratorProperties.

(** ** The properties on the concrete instance *)

Section Instances.
Import Demo.

Example stat_of_listed_file :
  (getFs.stat "/home/project/.git/config" world).2
  = Ok (mkStat true false false 1 438 1700000000000 1000 1000).
Proof. by vm_compute. Qed.

Example stat_of_unlisted_name :
  (getFs.stat "/home/project/.git/HEAD" world).2
  = Rejected (ThrowErr (getFs.enoent "/home/project/.git/HEAD")).
Proof. by vm_compute. Qed.

Example stat_under_unreadable_parent :
  (getFs.stat "/home/project/missing/x" world).2
  = Rejected (ThrowErr (getFs.enoent "/home/project/missing/x")).
Proof. by vm_compute. Qed.

Example readlink_error_has_no_code :
  (getFs.readlink "/home/project/link" world).2
  = Rejected (ThrowErr
      (mkJsError "Error" "EINVAL: invalid argument, readlink '/home/project/link'"
                 None None None None)).
Proof. by vm_compute. Qed.

Example onAuth_after_cancelled_username_prompt :
  (onAuth "https://other.org/org/repo.git" world).2
  = Ok (Supplied (mkCredential JNull (JStr "secret"))).
Proof. by vm_compute. Qed.

(** C1 does not hold for an empty [from]: the specification's
    computation climbs nowhere and descends to "a", the code answers
    ".". *)
Lemma relative_empty_from_differs :
  pathUtils.relative "" "/a" = "."
  ∧ RelativeSpec.spec_relative "" "/a" = "a"
  ∧ pathUtils.relative "" "/a" ≠ RelativeSpec.spec_relative "" "/a".
Proof. by vm_compute. Qed.

(** C3 does not hold when the caller passes [recursive: false]: that
    is what the sandbox's remove receives. *)
Lemma rmdir_passes_recursive_false :
  let asked :=
    removals (sandbox (getFs.rmdir "/home/project/build"
                         (JObj {[ "recursive" := JBool false ]}) world).1) in
  asked.*1 = ["build"]
  ∧ (λ call, call.2 !! "recursive") <$> asked = [Some (JBool false)]
  ∧ (λ call, call.2 !! "recursive") <$> asked ≠ [Some (JBool true)].
Proof. by vm_compute. Qed.

(** C4 does not hold for an engine that writes during the push: the
    ref it wrote is in the ledger afterwards. *)
Lemma push_that_writes_alters_ledger :
  let after :=
    ledger (@gitPush _ _ _ (engine failing_clone ref_writing_push)
                     "origin" "main" world).1 in
  after !! ".git/refs/remotes/origin/main"
    = Some (mkEntry (JStr "0a1b2c") (JStr "utf8"))
  ∧ ledger world !! ".git/refs/remotes/origin/main" = None
  ∧ after ≠ ledger world.
Proof.
  assert (ledger world !! ".git/refs/remotes/origin/main" = None) as Hbefore
    by reflexivity.
  intros after.
  assert (after !! ".git/refs/remotes/origin/main"
          = Some (mkEntry (JStr "0a1b2c") (JStr "utf8"))) as Hafter
    by (by vm_compute).
  split; [done|]. split; [done|].
  intros Heq. rewrite Heq, Hbefore in Hafter. discriminate.
Qed.

(** C6 at a file named [__proto__]: both writes go through to the
    sandbox and neither is in the snapshot. *)
Example proto_write_is_not_recorded :
  let w1 := (getFs.writeFile "/home/project/__proto__" (JStr "v1") utf8 world).1 in
  let w2 := (getFs.writeFile "/home/project/__proto__" (JStr "v2") utf8 w1).1 in
  files (sandbox w2) !! "__proto__" = Some (JStr "v2")
  ∧ snapshot (ledger w2) !! "__proto__" = None
  ∧ map_to_list (snapshot (ledger w2))
    = [("old.txt", mkEntry (JStr "old") (JStr "utf8"))].
Proof. by vm_compute. Qed.

Example second_write_wins :
  let w1 := (getFs.writeFile "/home/project/src/main.ts" (JStr "v1") utf8 world).1 in
  let w2 := (getFs.writeFile "/home/project/src//main.ts/" (JStr "v2") utf8 w1).1 in
  filter (λ kv, kv.1 = "src/main.ts") (map_to_list (snapshot (ledger w2)))
  = [("src/main.ts", mkEntry (JStr "v2") (JStr "utf8"))].
Proof. by vm_compute. Qed.

(** C7 does not hold for a clone that fails after a write: the caller
    gets the error, and the ledger holds the entry written before the
    failure. *)
Lemma failed_clone_keeps_partial_ledger :
  let outcome := @gitClone _ _ _ (engine failing_clone read_only_push)
                           "https://example.com/org/repo.git" world in
  outcome.2 = Rejected (ThrowStr "network down")
  ∧ map_to_list (ledger outcome.1)
    = [("README.md", mkEntry (JStr "# hi") (JStr "utf8"))]
  ∧ ledger outcome.1 ≠ ∅.
Proof.
  intros outcome.
  assert (map_to_list (ledger outcome.1)
          = [("README.md", mkEntry (JStr "# hi") (JStr "utf8"))]) as Hlist
    by (by vm_compute).
  split; [by vm_compute|]. split; [done|].
  intros Heq. rewrite Heq, map_to_list_empty in Hlist. discriminate.
Qed.

Lemma pull_without_remote_witness :
  let E := engine failing_clone read_only_push in
  initialized world = true
  ∧ Js.truthy JUndefined = false
  ∧ (@gitPull _ _ _ E world).2 = Rejected (ThrowStr "No remote repository found")
  ∧ network_events (@gitPull _ _ _ E world).1 = network_events world.
Proof.
  intros E. split; [reflexivity|]. split; [reflexivity|].
  refine (@pull_without_remote_stops_before_network _ _ _ E world
            (@run _ _ _ _ local_operation
                  (@git_getConfig E (config_args world))
                  (config_start world)).1
            JUndefined eq_refl _ eq_refl).
  by vm_compute.
Defined.

Lemma keyless_cookie_witness :
  let url := "https://example.com/org/repo.git" in
  cookies world !! ("git:" +:+ domain_of url) = Some "{}"
  ∧ JSON_parse "{}" = Some (JObj ∅)
  ∧ lookupSavedPassword url world
    = (world, Ok (Some (mkCredential JUndefined JUndefined)))
  ∧ onAuth url world = (world, Ok (Supplied (mkCredential JUndefined JUndefined)))
  ∧ (eager_headers url world).2
    = Ok (<["Authorization" := "Basic b64(undefined:undefined)"]>
            {[ "User-Agent" := "bolt.diy" ]}).
Proof.
  intros url.
  assert (cookies world !! ("git:" +:+ domain_of url) = Some "{}") as Hcookie
    by reflexivity.
  assert (JSON_parse "{}" = Some (JObj ∅)) as Hparse by reflexivity.
  split; [exact Hcookie|]. split; [exact Hparse|].
  destruct (keyless_cookie_is_a_credential url "{}" (JObj ∅) world
              Hcookie eq_refl Hparse) as (Hlookup & Hauth & Hheaders).
  split; [exact Hlookup|]. split; [exact Hauth|].
  rewrite Hheaders. reflexivity.
Defined.

(** C9 does not hold for the stored text [null]: it is valid JSON, it
    has neither key, and the lookup returns none, so that [onAuth]
    turns to the user and no header is added. *)
Lemma null_cookie_is_no_credential :
  let url := "https://example.com/org/repo.git" in
  let w := mkWorld true "/home/project" ∅ (mkDisk ∅ [])
                   {[ "git:example.com" := "null" ]} 0 [] in
  JSON_parse "null" = Some JNull
  ∧ cookies w !! ("git:" +:+ domain_of url) = Some "null"
  ∧ (lookupSavedPassword url w).2 = Ok None
  ∧ (lookupSavedPassword url w).2 ≠ Ok (Some (mkCredential JUndefined JUndefined))
  ∧ (eager_headers url w).2 = Ok {[ "User-Agent" := "bolt.diy" ]}.
Proof. by vm_compute. Qed.

End Instances.

(** ** More on the path algebra *)

Section PathAlgebraMore.
Import JsString pathUtils RelativeSpec.

Lemma split_slash_app a b :
  split_slash (a +:+ "/" +:+ b) = split_slash a ++ split_slash b.
Proof.
  induction a as [|c r IH]; [done|].
  change (String c r +:+ "/" +:+ b) with (String c (r +:+ "/" +:+ b)).
  simpl. rewrite IH. destruct (is_slash c); [done|].
  pose proof (split_slash_nonempty r).
  by destruct (split_slash r).
Qed.

Lemma concat_cons_char c h t :
  String.concat "/" (String c h :: t) = String c (String.concat "/" (h :: t)).
Proof. by destruct t. Qed.

Lemma join_slash_cons x y l :
  join_slash (x :: y :: l) = x +:+ "/" +:+ join_slash (y :: l).
Proof. done. Qed.

Lemma is_slash_true c : is_slash c = true → c = "/"%char.
Proof. unfold is_slash. by intros ?%bool_decide_eq_true. Qed.

Lemma split_slash_free seg : slash_free seg → split_slash seg = [seg].
Proof.
  unfold slash_free. induction seg as [|c r IH]; [done|]. simpl.
  destruct (is_slash c); [done|]. simpl. intros Hr. by rewrite IH.
Qed.

Lemma split_slash_pieces s : Forall slash_free (split_slash s).
Proof.
  induction s as [|c r IH]; simpl; [by repeat constructor|].
  destruct (is_slash c) eqn:Hc; [by constructor|].
  pose proof (split_slash_nonempty r).
  destruct (split_slash r) as [|h t]; [done|].
  apply Forall_cons in IH as [Hh Ht]. constructor; [|done].
  unfold slash_free in *. simpl. by rewrite Hc.
Qed.

Lemma split_join_slash l :
  l ≠ [] → Forall slash_free l → split_slash (join_slash l) = l.
Proof.
  induction l as [|x [|y l] IH]; intros Hne Hl; [done|..].
  - apply split_slash_free. by apply Forall_cons in Hl as [? _].
  - rewrite join_slash_cons, split_slash_app.
    apply Forall_cons in Hl as [Hx Hl].
    by rewrite (split_slash_free x), IH.
Qed.

Lemma normalizePathParts_filter p :
  normalizePathParts p = filter (λ seg, is_empty seg = false) (split_slash p).
Proof.
  unfold normalizePathParts. destruct (split_strip_trailing p) as [k ->].
  by rewrite filter_nonempty_replicate.
Qed.

Lemma normalizePathParts_pieces p :
  Forall (λ seg, is_empty seg = false ∧ slash_free seg) (normalizePathParts p).
Proof.
  rewrite normalizePathParts_filter. apply Forall_forall.
  intros seg [Hne Hin]%list_elem_of_filter. split; [done|].
  by eapply Forall_forall; [apply split_slash_pieces|].
Qed.

Lemma lcp_length_app l m : lcp_length l (l ++ m) = length l.
Proof.
  induction l as [|x l IH]; [by destruct m|]. simpl.
  by rewrite decide_True, IH.
Qed.

Lemma is_empty_false_app a b : is_empty a = false → is_empty (a +:+ b) = false.
Proof. by destruct a. Qed.

Lemma join_split_parts s : join_slash (split_slash s) = s.
Proof.
  unfold join_slash. induction s as [|c r IH]; [done|]. simpl.
  destruct (is_slash c) eqn:Hc.
  - apply is_slash_true in Hc as ->.
    pose proof (split_slash_nonempty r).
    destruct (split_slash r) as [|h t] eqn:Hr; [done|].
    change (String.concat "/" ("" :: h :: t))
      with ("/" +:+ String.concat "/" (h :: t)).
    by rewrite IH.
  - pose proof (split_slash_nonempty r).
    destruct (split_slash r) as [|h t] eqn:Hr; [done|].
    by rewrite concat_cons_char, IH.
Qed.

(** Splitting a string at the separator and joining the pieces again
    gives the string back; the pieces contain no separator, and there
    is always at least one. *)
Lemma join_split_slash s :
  join_slash (split_slash s) = s
  ∧ Forall slash_free (split_slash s)
  ∧ split_slash s ≠ [].
Proof.
  split; [apply join_split_parts|].
  split; [apply split_slash_pieces|apply split_slash_nonempty].
Qed.

Lemma normalizePathParts_concat a b :
  normalizePathParts (a +:+ "/" +:+ b)
  = normalizePathParts a ++ normalizePathParts b.
Proof. by rewrite !normalizePathParts_filter, split_slash_app, filter_app. Qed.

(** X1. The segments of two paths put together with a separator are
    the segments of the first followed by those of the second; so
    repeated, leading and trailing separators never add a segment. *)
Theorem normalizePathParts_app a b :
  normalizePathParts (a +:+ "/" +:+ b)
  = normalizePathParts a ++ normalizePathParts b.
Proof. apply normalizePathParts_concat. Qed.

Lemma relative_below_parts from rest :
  is_empty from = false →
  relative from (from +:+ "/" +:+ rest)
  = match normalizePathParts rest with
    | [] => "."
    | parts => join_slash parts
    end.
Proof.
  intros Hf. rewrite relative_nonempty_spec;
    [|done|by apply is_empty_false_app].
  unfold spec_relative.
  rewrite <- !normalizePathParts_segments, normalizePathParts_concat.
  rewrite drop_common_lcp, lcp_length_app, drop_all, drop_app_length.
  done.
Qed.

(** X2. Two paths with the same segments (equal up to repeated, leading
    and trailing separators) are at '.' from each other. *)
Theorem relative_same_segments from to :
  normalizePathParts from = normalizePathParts to →
  relative from to = ".".
Proof.
  intros Hsame.
  destruct (is_empty from) eqn:Hf; [by destruct from|].
  destruct (is_empty to) eqn:Ht; [by destruct from, to|].
  rewrite relative_nonempty_spec by done. unfold spec_relative.
  rewrite <- !normalizePathParts_segments, Hsame, drop_common_lcp.
  pose proof (lcp_length_app (normalizePathParts to) []) as Hlcp.
  rewrite app_nil_r in Hlcp. by rewrite Hlcp, drop_all.
Qed.

(** X3. A path below [from] is translated to its own segments joined
    by the separator, and to '.' when it has none. *)
Theorem relative_below from rest :
  is_empty from = false →
  relative from (from +:+ "/" +:+ rest)
  = match normalizePathParts rest with
    | [] => "."
    | parts => join_slash parts
    end.
Proof. apply relative_below_parts. Qed.

(** *** Well-formed results *)

Lemma replicate_dots_pieces k :
  Forall (λ seg, is_empty seg = false ∧ slash_free seg) (replicate k "..").
Proof. induction k; simpl; by repeat constructor. Qed.

(** X4. What [relative] returns is never empty and has no leading,
    trailing or repeated separator: every piece of it between
    separators is non-empty. *)
Theorem relative_well_formed from to :
  Forall (λ seg, is_empty seg = false) (split_slash (relative from to)).
Proof.
  unfold relative.
  destruct (is_empty from || is_empty to); [by repeat constructor|].
  cbv zeta.
  set (parts := replicate _ ".." ++ drop _ (normalizePathParts to)).
  assert (Forall (λ seg, is_empty seg = false ∧ slash_free seg) parts) as Hparts.
  { apply Forall_app. split; [apply replicate_dots_pieces|].
    apply Forall_drop, normalizePathParts_pieces. }
  case_bool_decide as Hlen; [by repeat constructor|].
  rewrite split_join_slash.
  - eapply Forall_impl; [done|]. by intros ? [? _].
  - by destruct parts.
  - eapply Forall_impl; [done|]. by intros ? [_ ?].
Qed.

(** *** [dirname] and [basename] *)

Lemma strip_slash_free seg : slash_free seg → strip_trailing_slashes seg = seg.
Proof.
  unfold slash_free. induction seg as [|c r IH]; [done|]. simpl.
  destruct (is_slash c); [done|]. simpl. intros Hr. by rewrite IH.
Qed.

Lemma strip_app a b :
  is_empty (strip_trailing_slashes b) = false →
  strip_trailing_slashes (a +:+ b) = a +:+ strip_trailing_slashes b.
Proof.
  intros Hb. induction a as [|c r IH]; [done|].
  change (String c r +:+ b) with (String c (r +:+ b)). simpl. rewrite IH.
  replace (is_empty (r +:+ strip_trailing_slashes b)) with false;
    [by rewrite andb_false_r|].
  destruct r; [done|done].
Qed.

Lemma strip_tail d b :
  is_empty b = false → slash_free b →
  strip_trailing_slashes (d +:+ "/" +:+ b) = d +:+ "/" +:+ b.
Proof.
  intros Hb Hfree.
  assert (strip_trailing_slashes ("/" +:+ b) = "/" +:+ b) as Hs.
  { change ("/" +:+ b) with (String "/" b). simpl.
    rewrite strip_slash_free, Hb by done. done. }
  rewrite strip_app; rewrite Hs; done.
Qed.

Lemma includes_slash_app d b : includes_slash (d +:+ "/" +:+ b) = true.
Proof.
  induction d as [|c r IH]; [done|].
  change (String c r +:+ "/" +:+ b) with (String c (r +:+ "/" +:+ b)).
  simpl. by rewrite IH, orb_true_r.
Qed.

Lemma dirname_basename_tail d b :
  is_empty b = false → slash_free b →
  dirname (d +:+ "/" +:+ b) = (if is_empty d then "/" else d)
  ∧ basename (d +:+ "/" +:+ b) None = b.
Proof.
  intros Hb Hfree. unfold dirname, basename.
  rewrite strip_tail, split_slash_app, (split_slash_free b) by done.
  rewrite includes_slash_app, last_snoc. simpl.
  replace (is_empty (d +:+ "/" +:+ b)) with false by (by destruct d).
  simpl. split.
  - unfold slice_init. rewrite length_app. simpl.
    replace (length (split_slash d) + 1 - 1) with (length (split_slash d)) by lia.
    rewrite take_app_length.
    pose proof (join_split_parts d) as ->. done.
  - unfold or_else. by rewrite Hb.
Qed.

(** X5. For a path that ends in a separator and a non-empty last
    segment, [dirname] is everything before that separator ('/' when
    there is nothing before it) and [basename] is the last segment. *)
Theorem dirname_basename_split d b :
  is_empty b = false → slash_free b →
  dirname (d +:+ "/" +:+ b) = (if is_empty d then "/" else d)
  ∧ basename (d +:+ "/" +:+ b) None = b.
Proof. apply dirname_basename_tail. Qed.

Lemma substring_prefix_slash_free n s :
  slash_free s → slash_free (String.substring 0 n s).
Proof.
  unfold slash_free. revert n. induction s as [|c r IH]; intros [|n]; try done.
  simpl. destruct (is_slash c); [done|]. simpl. apply IH.
Qed.

Lemma last_split_slash_free s : slash_free (default "" (last (split_slash s))).
Proof.
  destruct (last (split_slash s)) as [seg|] eqn:Hlast; [|done]. simpl.
  apply last_Some_elem_of in Hlast.
  by eapply Forall_forall; [apply split_slash_pieces|].
Qed.

(** X6. [dirname] never returns the empty string, and [basename],
    with or without an extension to cut, never returns a string with a
    separator in it. *)
Theorem dirname_nonempty_basename_slash_free path ext :
  is_empty (dirname path) = false ∧ slash_free (basename path ext).
Proof.
  split.
  - unfold dirname, or_else. destruct (is_empty path || _); [done|].
    by destruct (is_empty (join_slash _)) eqn:He.
  - unfold basename.
    assert (slash_free
              (or_else (default "" (last (split_slash
                          (strip_trailing_slashes path)))) "")) as Hbase.
    { unfold or_else. destruct (is_empty _); [done|].
      apply last_split_slash_free. }
    destruct ext as [e|]; [|done].
    destruct (negb (is_empty e) && _); [|done].
    by apply substring_prefix_slash_free.
Qed.






End PathAlgebraMore.

(** ** More on the filesystem adapter *)

Section AdapterMore.
Context {SB : Type} `{!WebContainerFs SB} `{!Browser}.
Implicit Types (w : World SB) (path : string) (options : JsVal).
Import JsString pathUtils.

Lemma stat_outcome path w :
  (getFs.stat path w).2 =
    match (wc_readdir (dirname (relative (workdir w) path))
                      (JObj {[ "withFileTypes" := JBool true ]})
                      (sandbox w)).2 with
    | Ok resp =>
        match getFs.find_entry resp
                (basename (relative (workdir w) path) None) with
        | Some fileInfo =>
            Ok (getFs.synthesize fileInfo (Date_now (ticks w)))
        | None => Rejected (ThrowErr (getFs.enoent path))
        end
    | Rejected _ => Rejected (ThrowErr (getFs.enoent path))
    end.
Proof.
  unfold_m. simpl.
  destruct (wc_readdir _ _ (sandbox w)) as [sb [resp|t]]; simpl; [|done].
  by destruct (getFs.find_entry resp _).
Qed.

Lemma join_slash_snoc ds b :
  ds ≠ [] → join_slash (ds ++ [b]) = join_slash ds +:+ "/" +:+ b.
Proof.
  induction ds as [|x [|y l] IH]; intros Hne; [done|done|].
  change ((x :: y :: l) ++ [b]) with (x :: y :: (l ++ [b])).
  rewrite !join_slash_cons.
  change (y :: l ++ [b]) with ((y :: l) ++ [b]).
  rewrite IH by done. by rewrite !append_assoc.
Qed.

Lemma translated_dirname_basename ds b :
  Forall (λ seg, is_empty seg = false ∧ slash_free seg) (ds ++ [b]) →
  dirname (join_slash (ds ++ [b]))
  = match ds with [] => "." | _ => join_slash ds end
  ∧ basename (join_slash (ds ++ [b])) None = b.
Proof.
  intros [Hds [[Hb Hfree] _]%Forall_cons]%Forall_app.
  destruct ds as [|x l] eqn:Hx.
  - simpl. unfold dirname, basename, join_slash. simpl.
    rewrite Hfree, strip_slash_free, split_slash_free by done. simpl.
    unfold or_else. rewrite Hb. by destruct b.
  - rewrite <- Hx in *. rewrite join_slash_snoc by (by subst).
    destruct (dirname_basename_tail (join_slash ds) b Hb Hfree) as [-> ->].
    split; [|done]. subst ds.
    apply Forall_cons in Hds as [[Hne _] _].
    replace (is_empty (join_slash (x :: l))) with false; [done|].
    destruct l; [by unfold join_slash; simpl; rewrite Hne|].
    rewrite join_slash_cons.
    symmetry. by apply is_empty_false_app.
Qed.

(** X8. [stat] of a path below the working directory lists the
    directory named by the path's segments but the last (the directory
    '.' when there is one segment only) and looks for the last segment
    in it, whatever separators the path repeats or ends with. *)
Theorem stat_below_workdir w rest ds b :
  is_empty (workdir w) = false →
  normalizePathParts rest = ds ++ [b] →
  (getFs.stat (workdir w +:+ "/" +:+ rest) w).2 =
    match (wc_readdir (match ds with [] => "." | _ => join_slash ds end)
                      (JObj {[ "withFileTypes" := JBool true ]})
                      (sandbox w)).2 with
    | Ok resp =>
        match getFs.find_entry resp b with
        | Some fileInfo =>
            Ok (getFs.synthesize fileInfo (Date_now (ticks w)))
        | None =>
            Rejected (ThrowErr (getFs.enoent (workdir w +:+ "/" +:+ rest)))
        end
    | Rejected _ =>
        Rejected (ThrowErr (getFs.enoent (workdir w +:+ "/" +:+ rest)))
    end.
Proof.
  intros Hw Hparts. rewrite stat_outcome.
  rewrite relative_below_parts, Hparts by done.
  pose proof (normalizePathParts_pieces rest) as Hpieces.
  rewrite Hparts in Hpieces.
  destruct (translated_dirname_basename ds b Hpieces) as [Hd Hb].
  assert (match ds ++ [b] with [] => "." | parts => join_slash parts end
          = join_slash (ds ++ [b])) as -> by (by destruct ds).
  by rewrite Hd, Hb.
Qed.

(** X9. [mkdir] asks the sandbox for the translated path with
    [recursive: true], whatever [recursive] the caller passed; every
    other option of the caller goes through. *)
Theorem mkdir_forces_recursive path options w key :
  ∃ passed,
    getFs.mkdir path options w =
      on_sandbox (wc_mkdir (relative (workdir w) path) passed) w
    ∧ passed !! key =
        (if decide (key = "recursive") then Some (JBool true)
         else Js.spread options !! key).
Proof.
  exists (<["recursive" := JBool true]> (Js.spread options)).
  split; [by crunch|].
  destruct (decide (key = "recursive")) as [->|Hne].
  - apply lookup_insert_eq.
  - by apply lookup_insert_ne.
Qed.

(** X10. [writeFile] called without an options value is rejected
    with a TypeError before anything happens: no ledger entry, no call
    to the sandbox. [readFile] called the same way goes through, with
    no encoding. *)
Theorem writeFile_needs_options path d w :
  getFs.writeFile path d JUndefined w =
    (w, Rejected (ThrowErr (TypeError
           "Cannot read properties of undefined (reading 'encoding')")))
  ∧ getFs.writeFile path d JNull w =
    (w, Rejected (ThrowErr (TypeError
           "Cannot read properties of null (reading 'encoding')")))
  ∧ getFs.readFile path JUndefined w =
    on_sandbox (wc_readFile (relative (workdir w) path) JUndefined) w.
Proof. split; [done|]. split; [done|]. by crunch. Qed.

(** X11. [writeFile] records the write before it asks the sandbox:
    for a relative path other than [__proto__], when the sandbox
    rejects the write, the call is rejected with the sandbox's error and
    the ledger holds the entry all the same. *)
Theorem writeFile_records_rejected_write path d options enc t w :
  Js.get options "encoding" = Ok enc →
  relative (workdir w) path ≠ "__proto__" →
  (wc_writeFile (relative (workdir w) path) d
                (<["encoding" := enc]> (Js.spread options)) (sandbox w)).2
    = Rejected t →
  (getFs.writeFile path d options w).2 = Rejected t
  ∧ ledger (getFs.writeFile path d options w).1 !! relative (workdir w) path
    = Some (mkEntry d enc).
Proof.
  intros Hget Hproto Hsb. unfold_m. rewrite Hget. simpl.
  destruct (wc_writeFile _ _ _ _) as [sb r]. simpl in *. subst r. simpl.
  split; [done|]. unfold getFs.record_set. rewrite decide_False by done.
  apply lookup_insert_eq.
Qed.

End AdapterMore.

(** ** What a run of the engine can and cannot change *)

Section RunInvariants.
Context {SB : Type} `{!WebContainerFs SB} `{!Browser}.
Implicit Types (w : World SB) (c : EngineCall).

Lemma serve_ledger_dom h c w :
  dom (ledger w) ⊆ dom (ledger (serve h c w).1).
Proof.
  destruct (is_writeFile c) eqn:Hc; [|by rewrite serve_ledger].
  destruct c as [|path d options| | | | | | | | | | | | | |]; try done.
  simpl. unfold bind.
  destruct (Js.get options "encoding") as [enc|t] eqn:Hget.
  - destruct (writeFile_ledger path d options enc w Hget) as [Hl _].
    destruct (getFs.writeFile path d options w) as [w1 [v|t]];
      simpl in *; rewrite Hl; unfold getFs.record_set;
      (case_decide; [done|apply dom_insert_subseteq]).
  - unfold getFs.writeFile, bind, lift. by rewrite Hget.
Qed.

(** X12. No call of the engine removes a ledger entry: whatever the
    engine does during a run, [rm], [rmdir] and [unlink] included, the
    paths recorded before are still recorded after. *)
Theorem run_keeps_ledger_entries {R} h (p : Engine R) w :
  dom (ledger w) ⊆ dom (ledger (run h p w).1).
Proof.
  revert w. induction p as [r|t|c k IH]; intros w; [done..|].
  simpl. pose proof (serve_ledger_dom h c w) as Hs.
  destruct (serve h c w) as [w' r]. simpl in Hs.
  etrans; [exact Hs|apply IH].
Qed.






End RunInvariants.

(** ** More on the credential cache and the hooks *)

Section CredentialsMore.
Context {SB : Type} `{!WebContainerFs SB} `{!Browser}.
Implicit Types (w : World SB) (url : string) (auth : JsVal).
Import JsString.

Lemma domain_of_third a b c rest :
  slash_free a → slash_free b → slash_free c →
  split_slash (a +:+ "/" +:+ b +:+ "/" +:+ c) !! 2 = Some c
  ∧ split_slash (a +:+ "/" +:+ b +:+ "/" +:+ c +:+ "/" +:+ rest) !! 2 = Some c.
Proof.
  intros Ha Hb Hc.
  rewrite !split_slash_app, (split_slash_free a), (split_slash_free b),
    (split_slash_free c) by done.
  done.
Qed.

(** X14. The cache key is the third '/'-separated piece of the URL:
    for [scheme//host] and [scheme//host/rest] it is [host], with any
    user-info and port the URL carries there; a URL with fewer than two
    separators, such as [git@host:org/repo.git], has the key of
    'undefined'. *)
Theorem domain_of_url scheme host rest a b :
  slash_free scheme → slash_free host → slash_free a → slash_free b →
  domain_of (scheme +:+ "//" +:+ host) = host
  ∧ domain_of (scheme +:+ "//" +:+ host +:+ "/" +:+ rest) = host
  ∧ domain_of (a +:+ "/" +:+ b) = "undefined"
  ∧ domain_of a = "undefined".
Proof.
  intros Hs Hh Ha Hb. unfold domain_of.
  assert (slash_free "") as He by done.
  destruct (domain_of_third scheme "" host rest Hs He Hh) as [H1 H2].
  change (scheme +:+ "/" +:+ "" +:+ "/" +:+ host)
    with (scheme +:+ "//" +:+ host) in H1.
  change (scheme +:+ "/" +:+ "" +:+ "/" +:+ host +:+ "/" +:+ rest)
    with (scheme +:+ "//" +:+ host +:+ "/" +:+ rest) in H2.
  rewrite H1, H2, split_slash_app, !split_slash_free by done. done.
Qed.

Lemma lookup_by_cookie url url' w w' :
  cookies w' !! ("git:" +:+ domain_of url') = cookies w !! ("git:" +:+ domain_of url) →
  (lookupSavedPassword url' w').2 = (lookupSavedPassword url w).2.
Proof.
  intros Hsame. unfold lookupSavedPassword, bind, get_world, ret, emit.
  simpl. rewrite Hsame.
  destruct (cookies w !! _) as [text|]; [|done].
  destruct (is_empty text); [done|].
  destruct (JSON_parse text) as [v|]; [|done].
  by destruct (Js.get v "username"), (Js.get v "password").
Qed.

Lemma git_key_inj d1 d2 : "git:" +:+ d1 = "git:" +:+ d2 → d1 = d2.
Proof. by intros [=]. Qed.

(** X15. What [saveGitAuth] stores for a URL is what a lookup for any
    URL of the same host finds, provided the stored text is not empty
    and parses back to a value with properties; [onAuth] then supplies
    it without opening a dialog. *)
Theorem saved_credential_is_found url url' auth v u p w :
  domain_of url' = domain_of url →
  is_empty (JSON_stringify auth) = false →
  JSON_parse (JSON_stringify auth) = Some v →
  Js.get v "username" = Ok u →
  Js.get v "password" = Ok p →
  let w1 := (saveGitAuth url auth w).1 in
  lookupSavedPassword url' w1 = (w1, Ok (Some (mkCredential u p)))
  ∧ onAuth url' w1 = (w1, Ok (Supplied (mkCredential u p))).
Proof.
  intros Hhost Hne Hparse Hu Hp w1.
  assert (lookupSavedPassword url' w1 = (w1, Ok (Some (mkCredential u p))))
    as Hlookup.
  { unfold lookupSavedPassword, bind, get_world, ret. subst w1.
    unfold saveGitAuth, bind, get_world, set_cookies. simpl.
    by rewrite Hhost, lookup_insert_eq, Hne, Hparse, Hu, Hp. }
  split; [done|]. unfold onAuth, bind. by rewrite Hlookup.
Qed.

(** X16. Saving a credential for one host changes no lookup for a
    URL of another host. *)
Theorem saved_credential_is_per_host url url' auth w :
  domain_of url ≠ domain_of url' →
  (lookupSavedPassword url' (saveGitAuth url auth w).1).2
  = (lookupSavedPassword url' w).2.
Proof.
  intros Hne. apply lookup_by_cookie.
  unfold saveGitAuth, bind, get_world, set_cookies. simpl.
  apply lookup_insert_ne. by intros ?%git_key_inj.
Qed.


(** X18. [onAuthFailure] shows a toast naming the host and leaves the
    cache alone: the credential that was just refused is still what the
    next lookup returns. *)
Theorem onAuthFailure_keeps_cache url url' auth w :
  onAuthFailure url auth w =
    (mkWorld (initialized w) (workdir w) (ledger w) (sandbox w) (cookies w)
             (ticks w)
             (trace w ++ [ToastError ("Error Authenticating with " +:+ domain_of url)]),
     Ok tt)
  ∧ (lookupSavedPassword url' (onAuthFailure url auth w).1).2
    = (lookupSavedPassword url' w).2.
Proof. split; [done|]. by apply lookup_by_cookie. Qed.

(** X19. The headers computed ahead of clone and pull always carry
    the client identifier, and carry an [Authorization] header exactly
    when the lookup found a credential. *)
Theorem eager_headers_content url w :
  ∃ headers,
    (eager_headers url w).2 = Ok headers
    ∧ headers !! "User-Agent" = Some "bolt.diy"
    ∧ match (lookupSavedPassword url w).2 with
      | Ok (Some c) =>
          headers !! "Authorization"
          = Some ("Basic " +:+ base64 (Js.to_string (username c) +:+ ":" +:+
                                       Js.to_string (password c)))
      | _ => headers !! "Authorization" = None
      end.
Proof.
  unfold eager_headers, bind.
  destruct (lookupSavedPassword_frame url w) as (es & _ & _ & found & Hr).
  destruct (lookupSavedPassword url w) as [w1 r]. simpl in *. subst r.
  destruct found as [c|]; unfold ret; simpl;
    (eexists; split; [reflexivity|]); by split.
Qed.

End CredentialsMore.

(** ** The readiness check and the outcome of a push *)

Section OrchestratorMore.
Context {SB : Type} `{!WebContainerFs SB} `{!Browser} `{!GitEngine}.
Implicit Types (w : World SB).

(** X20. On a container that is not ready, clone, push and pull are
    all rejected with 'Webcontainer not initialized' and nothing else
    happens: no engine call, no dialog, no log, no change of state. *)
Theorem not_ready_rejects_everything url remote branch w :
  initialized w = false →
  gitClone url w = (w, Rejected (ThrowStr "Webcontainer not initialized"))
  ∧ gitPush remote branch w
    = (w, Rejected (ThrowStr "Webcontainer not initialized"))
  ∧ gitPull w = (w, Rejected (ThrowStr "Webcontainer not initialized")).
Proof.
  intros Hready. unfold gitClone, gitPush, gitPull, bind, get_world.
  simpl. by rewrite Hready.
Qed.

(** X21. On a ready container a push ends as the engine's push ends:
    when the engine resolves, the push resolves after a success toast
    naming remote and branch; when the engine rejects, the push is
    rejected with the very same value, after the error went to the
    console and a failure toast was shown. *)
Theorem push_reports_engine_outcome remote branch w :
  initialized w = true →
  match run network_operation (git_push (push_args remote branch w))
            (emit (EnginePush (push_args remote branch w)) w).1 with
  | (w1, Ok _) =>
      gitPush remote branch w =
        (mkWorld (initialized w1) (workdir w1) (ledger w1) (sandbox w1)
                 (cookies w1) (ticks w1)
                 (trace w1 ++
                  [ToastSuccess ("Successfully pushed to " +:+ remote +:+
                                 "/" +:+ branch)]),
         Ok tt)
  | (w1, Rejected t) =>
      gitPush remote branch w =
        (mkWorld (initialized w1) (workdir w1) (ledger w1) (sandbox w1)
                 (cookies w1) (ticks w1)
                 (trace w1 ++
                  [ConsoleError "Error during git push:" t;
                   ToastError
                     "Failed to push changes. Check the console for more details."]),
         Rejected t)
  end.
Proof.
  intros Hready. destruct w as [ini wd led sb ck tk tr].
  simpl in Hready. subst ini.
  unfold gitPush, push_args, try_catch, bind, get_world, emit, throw. simpl.
  match goal with
  | |- context [run ?h ?p ?w0] => destruct (run h p w0) as [w1 [[]|t]]
  end; simpl; [done|]. by rewrite <- app_assoc.
Qed.

End OrchestratorMore.

(** ** The issue reporter *)

Section ReporterProperties.
Context {SB : Type} `{!Browser} `{!Octokit}.
Implicit Types (w : World SB) (githubUsername ghToken issueBody : option string).
Import JsString.

Ltac filter_trace :=
  rewrite ?filter_app;
  repeat first [ rewrite filter_cons_True by done
               | rewrite filter_cons_False by done ];
  rewrite ?filter_nil, ?app_nil_r.

Ltac unfold_report :=
  unfold gitReportIssue, create_issue, alert, prompt, try_catch, bind, ret,
    throw, lift, emit, tick, get_world.

(** X22. The only rejection of [gitReportIssue] is the one for an
    empty repository name, raised before anything else happens; with a
    repository name the call always resolves, whatever the tracker
    answers. *)
Theorem report_rejects_only_without_repo
    repoName issueTitle githubUsername ghToken issueBody w :
  if is_empty repoName
  then gitReportIssue repoName issueTitle githubUsername ghToken issueBody w
       = (w, Rejected (ThrowErr (new_Error "Repository name is required.")))
  else ∃ v, (gitReportIssue repoName issueTitle githubUsername ghToken
                            issueBody w).2 = Ok v.
Proof.
  unfold_report. destruct (is_empty repoName); [done|].
  repeat (simpl;
          match goal with
          | |- context [issues_create ?n ?r] => destruct (issues_create n r)
          | |- context [if ?b then _ else _] => destruct b
          end);
    simpl; by eexists.
Qed.

(** X23. With a user name and a token passed in, the cookies are not
    read and nobody is asked: the one thing sent is the request for an
    issue owned by that user, authenticated by that token, labelled
    'bug', with the default body when none is given. The tracker's data
    is returned after a success toast; its failure is logged, shown as
    a toast and turned into [null]. *)
Theorem report_with_given_credentials repoName issueTitle u t issueBody w :
  is_empty repoName = false → is_empty u = false → is_empty t = false →
  let request :=
    mkIssueRequest t u repoName issueTitle
      (match issueBody with
       | Some b => if is_empty b then "No description provided." else b
       | None => "No description provided."
       end) ["bug"] in
  let sent := trace w ++ [HttpRequest (Report.wire request)] in
  gitReportIssue repoName issueTitle (Some u) (Some t) issueBody w =
    match issues_create (ticks w) request with
    | Ok data =>
        (mkWorld (initialized w) (workdir w) (ledger w) (sandbox w)
                 (cookies w) (S (ticks w))
                 (sent ++ [ToastSuccess "Issue reported successfully!"]),
         Ok data)
    | Rejected e =>
        (mkWorld (initialized w) (workdir w) (ledger w) (sandbox w)
                 (cookies w) (S (ticks w))
                 (sent ++
                  [ConsoleError "Error reporting to GitHub:" e;
                   ToastError
                     "Failed to report issue. Check the console for more details."]),
         Ok JNull)
    end.
Proof.
  intros Hrepo Hu Ht request sent. subst request sent.
  unfold_report. rewrite Hrepo. simpl.
  unfold Report.or_else. simpl. rewrite Hu, Ht. simpl. rewrite Hu, Ht. simpl.
  assert (Report.or_empty
            (if Report.falsy issueBody then Some "No description provided."
             else issueBody)
          = match issueBody with
            | Some b => if is_empty b then "No description provided." else b
            | None => "No description provided."
            end) as ->.
  { destruct issueBody as [b|]; [|done]. simpl. by destruct (is_empty b). }
  rewrite ?Hu, ?Ht. simpl.
  destruct (issues_create _ _); simpl; [done|]. by rewrite <- !app_assoc.
Qed.

(** X24. When the user name or the token is missing from both the
    arguments and the cookies, both are asked for, and the answers
    replace whatever was there, the one that was not missing too. If an
    answer is empty or cancelled the call resolves to [null] and no
    request is sent; otherwise the request goes out under the two
    answers. *)
Theorem report_asks_for_both
    repoName issueTitle githubUsername ghToken issueBody w :
  is_empty repoName = false →
  Report.falsy (Report.or_else githubUsername (cookies w !! "githubUsername"))
  || Report.falsy (Report.or_else ghToken (cookies w !! "githubToken")) = true →
  let u := Report.or_empty
             (user_prompt (ticks w) "Please enter your GitHub username:") in
  let t := Report.or_empty
             (user_prompt (S (ticks w))
                "Please enter your GitHub personal access token:") in
  let outcome :=
    gitReportIssue repoName issueTitle githubUsername ghToken issueBody w in
  if is_empty u || is_empty t
  then outcome.2 = Ok JNull
       ∧ filter (λ e, is_network e = true) (trace outcome.1)
         = filter (λ e, is_network e = true) (trace w)
  else ∃ request,
         issue_owner request = u ∧ issue_auth request = t
         ∧ filter (λ e, is_network e = true) (trace outcome.1)
           = filter (λ e, is_network e = true) (trace w)
             ++ [HttpRequest (Report.wire request)]
         ∧ outcome.2 = match issues_create (S (S (ticks w))) request with
                       | Ok data => Ok data
                       | Rejected _ => Ok JNull
                       end.
Proof.
  intros Hrepo Hmissing u t outcome. subst u t outcome.
  unfold_report. rewrite Hrepo. simpl. rewrite Hmissing. simpl.
  destruct (is_empty (Report.or_empty (user_prompt (ticks w) _))
            || is_empty (Report.or_empty (user_prompt (S (ticks w)) _))); simpl.
  - split; [done|]. by filter_trace.
  - exists (mkIssueRequest
              (Report.or_empty
                 (user_prompt (S (ticks w))
                    "Please enter your GitHub personal access token:"))
              (Report.or_empty
                 (user_prompt (ticks w) "Please enter your GitHub username:"))
              repoName issueTitle
              (Report.or_empty
                 (Report.or_else issueBody (Some "No description provided.")))
              ["bug"]).
    split; [done|]. split; [done|].
    destruct (issues_create _ _); simpl; by filter_trace.
Qed.

End ReporterProperties.

(** ** The further properties on the concrete instance *)

Section MoreInstances.
Import Demo JsString pathUtils.

Lemma relative_same_segments_witness :
  normalizePathParts "/a/b/" = normalizePathParts "//a//b"
  ∧ relative "/a/b/" "//a//b" = ".".
Proof.
  assert (normalizePathParts "/a/b/" = normalizePathParts "//a//b") as Hsame
    by reflexivity.
  split; [exact Hsame|]. exact (relative_same_segments _ _ Hsame).
Defined.

Lemma relative_below_witness :
  is_empty "/home/project" = false
  ∧ relative "/home/project" ("/home/project" +:+ "/" +:+ ".git//config/")
    = ".git/config".
Proof.
  split; [reflexivity|].
  exact (relative_below "/home/project" ".git//config/" eq_refl).
Defined.

Lemma dirname_basename_split_witness :
  is_empty "heads" = false ∧ slash_free "heads"
  ∧ dirname (".git/refs" +:+ "/" +:+ "heads") = ".git/refs"
  ∧ basename (".git/refs" +:+ "/" +:+ "heads") None = "heads".
Proof.
  split; [reflexivity|]. split; [reflexivity|].
  exact (dirname_basename_split ".git/refs" "heads" eq_refl eq_refl).
Defined.


Lemma stat_below_workdir_witness :
  is_empty (workdir world) = false
  ∧ normalizePathParts ".git//config/" = [".git"] ++ ["config"]
  ∧ (getFs.stat ("/home/project" +:+ "/" +:+ ".git//config/") world).2
    = Ok (mkStat true false false 1 438 1700000000000 1000 1000).
Proof.
  assert (normalizePathParts ".git//config/" = [".git"] ++ ["config"]) as Hparts
    by reflexivity.
  split; [reflexivity|]. split; [exact Hparts|].
  rewrite (stat_below_workdir world ".git//config/" [".git"] "config"
             eq_refl Hparts).
  by vm_compute.
Defined.

Lemma writeFile_records_rejected_write_witness :
  let path := "/home/project/src/main.ts" in
  let before := @getFs.writeFile _ ReadOnly.fs path (JStr "v1") utf8 world in
  Js.get utf8 "encoding" = Ok (JStr "utf8")
  ∧ relative (workdir world) path ≠ "__proto__"
  ∧ before.2 = Rejected (ReadOnly.refused "src/main.ts")
  ∧ ledger before.1 !! "src/main.ts" = Some (mkEntry (JStr "v1") (JStr "utf8")).
Proof.
  intros path before.
  assert (Js.get utf8 "encoding" = Ok (JStr "utf8")) as Hget by reflexivity.
  assert (relative (workdir world) path ≠ "__proto__") as Hproto by done.
  split; [exact Hget|]. split; [exact Hproto|].
  exact (@writeFile_records_rejected_write _ ReadOnly.fs path (JStr "v1") utf8
           (JStr "utf8") (ReadOnly.refused "src/main.ts") world Hget Hproto
           eq_refl).
Defined.

Lemma domain_of_url_witness :
  slash_free "https:" ∧ slash_free "user:pw@example.com:8443"
  ∧ slash_free "git@github.com:org" ∧ slash_free "repo.git"
  ∧ domain_of "https://user:pw@example.com:8443" = "user:pw@example.com:8443"
  ∧ domain_of "https://user:pw@example.com:8443/org/repo.git"
    = "user:pw@example.com:8443"
  ∧ domain_of "git@github.com:org/repo.git" = "undefined"
  ∧ domain_of "git@github.com:org" = "undefined".
Proof.
  do 4 (split; [reflexivity|]).
  exact (domain_of_url "https:" "user:pw@example.com:8443" "org/repo.git"
           "git@github.com:org" "repo.git" eq_refl eq_refl eq_refl eq_refl).
Defined.

Lemma saved_credential_is_found_witness :
  let B := Offline.browser in
  let w1 := (@saveGitAuth Disk B "https://other.org/a.git" Offline.alice
               world).1 in
  domain_of "https://other.org/b/c.git" = domain_of "https://other.org/a.git"
  ∧ is_empty (@JSON_stringify B Offline.alice) = false
  ∧ @JSON_parse B (@JSON_stringify B Offline.alice) = Some Offline.alice
  ∧ Js.get Offline.alice "username" = Ok (JStr "alice")
  ∧ Js.get Offline.alice "password" = Ok (JStr "secret")
  ∧ @lookupSavedPassword Disk B "https://other.org/b/c.git" w1
    = (w1, Ok (Some (mkCredential (JStr "alice") (JStr "secret"))))
  ∧ @onAuth Disk B "https://other.org/b/c.git" w1
    = (w1, Ok (Supplied (mkCredential (JStr "alice") (JStr "secret")))).
Proof.
  intros B w1.
  assert (is_empty (@JSON_stringify B Offline.alice) = false) as Hne
    by reflexivity.
  assert (@JSON_parse B (@JSON_stringify B Offline.alice) = Some Offline.alice)
    as Hparse by (by vm_compute).
  assert (Js.get Offline.alice "username" = Ok (JStr "alice")) as Hu
    by reflexivity.
  assert (Js.get Offline.alice "password" = Ok (JStr "secret")) as Hp
    by reflexivity.
  split; [reflexivity|]. split; [exact Hne|]. split; [exact Hparse|].
  split; [exact Hu|]. split; [exact Hp|].
  exact (@saved_credential_is_found Disk B "https://other.org/a.git"
           "https://other.org/b/c.git" Offline.alice Offline.alice
           (JStr "alice") (JStr "secret") world eq_refl Hne Hparse Hu Hp).
Defined.

Lemma saved_credential_is_per_host_witness :
  domain_of "https://other.org/a.git" ≠ domain_of "https://example.com/org/repo.git"
  ∧ (lookupSavedPassword "https://example.com/org/repo.git"
       (saveGitAuth "https://other.org/a.git" (JObj ∅) world).1).2
    = (lookupSavedPassword "https://example.com/org/repo.git" world).2.
Proof.
  assert (domain_of "https://other.org/a.git"
          ≠ domain_of "https://example.com/org/repo.git") as Hne by done.
  split; [exact Hne|].
  exact (saved_credential_is_per_host _ _ (JObj ∅) world Hne).
Defined.

Lemma not_ready_rejects_everything_witness :
  let E := engine failing_clone ref_writing_push in
  initialized asleep = false
  ∧ @gitClone _ _ _ E "https://example.com/org/repo.git" asleep
    = (asleep, Rejected (ThrowStr "Webcontainer not initialized"))
  ∧ @gitPush _ _ _ E "origin" "main" asleep
    = (asleep, Rejected (ThrowStr "Webcontainer not initialized"))
  ∧ @gitPull _ _ _ E asleep
    = (asleep, Rejected (ThrowStr "Webcontainer not initialized")).
Proof.
  intros E. split; [reflexivity|].
  exact (@not_ready_rejects_everything _ _ _ E
           "https://example.com/org/repo.git" "origin" "main" asleep eq_refl).
Defined.

Lemma push_reports_engine_outcome_witness :
  let E := engine failing_clone (Fail (ThrowStr "rejected by remote")) in
  initialized world = true
  ∧ (@gitPush _ _ _ E "origin" "main" world).2
    = Rejected (ThrowStr "rejected by remote")
  ∧ last (trace (@gitPush _ _ _ E "origin" "main" world).1)
    = Some (ToastError
              "Failed to push changes. Check the console for more details.").
Proof.
  intros E. split; [reflexivity|].
  pose proof (@push_reports_engine_outcome _ _ _ E "origin" "main" world
                eq_refl) as Hpush.
  simpl in Hpush. rewrite Hpush. by split.
Defined.

Lemma report_with_given_credentials_witness :
  is_empty "webrunch" = false ∧ is_empty "alice" = false
  ∧ is_empty "ghp_token" = false
  ∧ (@gitReportIssue Disk _ Tracker.filing "webrunch" "Clone fails"
       (Some "alice") (Some "ghp_token") None world).2
    = Ok (JObj {[ "number" := JNum "7"; "title" := JStr "Clone fails" ]})
  ∧ (@gitReportIssue Disk _ Tracker.down "webrunch" "Clone fails"
       (Some "alice") (Some "ghp_token") None world).2
    = Ok JNull.
Proof.
  do 3 (split; [reflexivity|]). split.
  - rewrite (@report_with_given_credentials Disk _ Tracker.filing "webrunch"
               "Clone fails" "alice" "ghp_token" None world
               eq_refl eq_refl eq_refl).
    reflexivity.
  - rewrite (@report_with_given_credentials Disk _ Tracker.down "webrunch"
               "Clone fails" "alice" "ghp_token" None world
               eq_refl eq_refl eq_refl).
    reflexivity.
Defined.

Lemma report_asks_for_both_witness :
  let outcome := @gitReportIssue Disk _ Tracker.filing "webrunch" "Clone fails"
                   (Some "alice") None None world in
  is_empty "webrunch" = false
  ∧ Report.falsy (Report.or_else (Some "alice")
                    (cookies world !! "githubUsername"))
    || Report.falsy (Report.or_else None (cookies world !! "githubToken"))
    = true
  ∧ outcome.2 = Ok JNull
  ∧ filter (λ e, is_network e = true) (trace outcome.1)
    = filter (λ e, is_network e = true) (trace world).
Proof.
  intros outcome. split; [reflexivity|]. split; [reflexivity|].
  exact (@report_asks_for_both Disk _ Tracker.filing "webrunch" "Clone fails"
           (Some "alice") None None world eq_refl eq_refl).
Defined.

End MoreInstances.

(** ** [stat], by the segments of the path *)

Section StatProperties.
Context {SB : Type} `{!WebContainerFs SB} `{!Browser}.
Implicit Types (w : World SB) (path : string).
Import JsString pathUtils RelativeSpec.

Lemma relative_by_parts from to :
  relative from to = joined (relative_parts from to).
Proof.
  unfold relative_parts.
  destruct (is_empty from) eqn:Hf; [by destruct from|].
  destruct (is_empty to) eqn:Ht; [by destruct from, to|].
  simpl. rewrite relative_nonempty_spec by done. unfold spec_relative.
  destruct (drop_common _ _) as [up down].
  by destruct (((λ _, "..") <$> up) ++ down).
Qed.

Lemma relative_parts_pieces from to :
  Forall (λ seg, is_empty seg = false ∧ slash_free seg)
         (relative_parts from to).
Proof.
  unfold relative_parts. destruct (is_empty from || is_empty to); [done|].
  rewrite <- !normalizePathParts_segments, drop_common_lcp.
  apply Forall_app. split.
  - rewrite fmap_const_replicate. apply replicate_dots_pieces.
  - apply Forall_drop, normalizePathParts_pieces.
Qed.

Lemma stat_target (l : list string) :
  Forall (λ seg, is_empty seg = false ∧ slash_free seg) l →
  dirname (joined l) = listed_directory l
  ∧ basename (joined l) None = looked_up_name l.
Proof.
  intros Hparts. unfold listed_directory, looked_up_name.
  induction l as [|b ds _] using rev_ind; [done|].
  destruct (translated_dirname_basename ds b Hparts) as [Hd Hb].
  assert (joined (ds ++ [b]) = join_slash (ds ++ [b])) as ->
    by (by destruct ds).
  rewrite Hd, Hb, removelast_last, last_snoc. by destruct ds.
Qed.

(** C2. [stat] lists one directory of the sandbox, the one named by
    the segments of the relative path but the last ('.' when there is
    at most one), and looks the last segment up in it ('.' when the
    path is the working directory itself). When the listing holds
    entries of that name, the stat object is synthesized from the
    first of them; when it holds none, when it is a listing of bare
    names, and when the listing is rejected, [stat] is rejected with
    the error of code ENOENT, errno -2, syscall "stat" and the
    requested path. *)
Theorem stat_synthesizes_or_enoent path w :
  let parts := relative_parts (workdir w) path in
  let listing :=
    wc_readdir (listed_directory parts)
               (JObj {[ "withFileTypes" := JBool true ]}) (sandbox w) in
  let base := looked_up_name parts in
  let failure :=
    Rejected (ThrowErr (mkJsError "Error" (getFs.enoent_message path)
                          (Some "ENOENT") (Some (-2)%Z) (Some "stat")
                          (Some path))) in
  match listing.2 with
  | Ok (Dirents l) =>
      (∃ i fileInfo,
          l !! i = Some fileInfo
          ∧ name fileInfo = base
          ∧ (∀ j x, l !! j = Some x → j < i → name x ≠ base)
          ∧ (getFs.stat path w).2 =
              Ok (mkStat (dirent_isFile fileInfo) (dirent_isDirectory fileInfo)
                         false 1 438 (Date_now (ticks w)) 1000 1000))
      ∨ (Forall (λ x, name x ≠ base) l ∧ (getFs.stat path w).2 = failure)
  | Ok (Names _) => (getFs.stat path w).2 = failure
  | Rejected _ => (getFs.stat path w).2 = failure
  end.
Proof.
  intros parts listing base failure. subst listing base failure.
  rewrite stat_outcome, relative_by_parts. fold parts.
  destruct (stat_target parts (relative_parts_pieces _ _)) as [-> ->].
  destruct (wc_readdir _ _ (sandbox w)) as [sb [[names|l]|t]]; simpl;
    [done| |done].
  destruct (list_find _ l) as [[i fileInfo]|] eqn:Hfind; simpl.
  - left. apply list_find_Some in Hfind as (Hi & Hname & Hfirst).
    exists i, fileInfo. by repeat split.
  - right. by apply list_find_None in Hfind.
Qed.

End StatProperties.

(** ** The ledger over a run *)

Section RunLedger.
Context {SB : Type} `{!WebContainerFs SB} `{!Browser} `{!GitEngine}.
Implicit Types (w : World SB) (c : EngineCall).

Lemma onAuth_workdir url w : workdir (onAuth url w).1 = workdir w.
Proof.
  destruct (lookupSavedPassword_frame url w) as (es & Hw & _ & found & Hr).
  unfold onAuth, bind.
  destruct (lookupSavedPassword url w) as [w1 r]. simpl in *. subst w1 r.
  destruct found as [c|]; [done|].
  unfold confirm, prompt, bind, tick, emit, ret. simpl.
  by destruct (user_confirm _ _).
Qed.

Lemma serve_workdir h c w : workdir (serve h c w).1 = workdir w.
Proof.
  destruct c; simpl.
  - by crunch.
  - unfold_m. destruct (Js.get options "encoding"); by crunch.
  - by crunch.
  - by crunch.
  - by crunch.
  - by crunch.
  - by crunch.
  - crunch. by option_cases.
  - crunch. by option_cases.
  - by crunch.
  - by crunch.
  - by crunch.
  - destruct (with_http h); [|done]. crunch. by destruct (http_response _ _).
  - destruct (with_hooks h); [|done]. unfold bind.
    pose proof (onAuth_workdir url w).
    by destruct (onAuth url w) as [w1 [a|t]].
  - destruct (with_hooks h); by crunch.
  - destruct (with_hooks h); by crunch.
Qed.

Lemma serve_recorded h c w :
  ledger (serve h c w).1 = recorded (workdir w) (ledger w) c.
Proof.
  destruct (is_writeFile c) eqn:Hc;
    [|rewrite serve_ledger by done; by destruct c].
  destruct c as [|path d options| | | | | | | | | | | | | |]; try done.
  simpl. unfold bind.
  destruct (Js.get options "encoding") as [enc|t] eqn:Hget.
  - destruct (writeFile_ledger path d options enc w Hget) as [Hl _].
    by destruct (getFs.writeFile path d options w) as [w1 [v|t]].
  - by rewrite (writeFile_no_options _ _ _ _ _ Hget).
Qed.

Lemma run_recorded {R} h (p : Engine R) w :
  ledger (run h p w).1
  = foldl (recorded (workdir w)) (ledger w) (calls_made h p w).
Proof.
  revert w. induction p as [r|t|c k IH]; intros w; [done..|].
  simpl. pose proof (serve_recorded h c w) as Hs.
  pose proof (serve_workdir h c w) as Hwd.
  destruct (serve h c w) as [w' r]. simpl in *.
  by rewrite IH, Hs, Hwd.
Qed.

Lemma foldl_recorded_others wd (l : gmap string LedgerEntry) calls :
  foldl (recorded wd) l calls
  = foldl (recorded wd) l (filter (λ c, is_writeFile c = true) calls).
Proof.
  revert l. induction calls as [|c calls IH]; intros l; [done|].
  destruct (is_writeFile c) eqn:Hc.
  - rewrite filter_cons_True by done. simpl. apply IH.
  - rewrite filter_cons_False by (by rewrite Hc). simpl. rewrite <- IH.
    by destruct c.
Qed.

(** C4, as the code has it. [gitPush] hands the engine the adapter
    that records every [writeFile]: the ledger after a push is the
    ledger before it with, in the order of the calls, the entry of each
    [writeFile] the engine made during the push. A push during which
    the engine makes no [writeFile] call leaves the ledger identical. *)
Theorem push_ledger_is_what_was_written remote branch w :
  let calls := push_calls remote branch w in
  ledger (gitPush remote branch w).1
  = foldl (recorded (workdir w)) (ledger w)
          (filter (λ c, is_writeFile c = true) calls)
  ∧ (Forall (λ c, is_writeFile c = false) calls →
     ledger (gitPush remote branch w).1 = ledger w).
Proof.
  intros calls.
  assert (ledger (gitPush remote branch w).1
          = foldl (recorded (workdir w)) (ledger w) calls) as Hall.
  { subst calls. destruct w as [[] wd led sb ck tk tr]; [|done].
    unfold push_calls, gitPush, push_args, try_catch, bind, get_world, emit.
    simpl.
    match goal with
    | |- context [run ?h ?p ?w0] =>
        pose proof (run_recorded h p w0) as Hrun;
        destruct (run h p w0) as [w1 [[]|t]]
    end; simpl in *; done. }
  split; [by rewrite Hall, foldl_recorded_others|].
  intros Hnone. rewrite Hall, foldl_recorded_others.
  replace (filter _ calls) with (@nil EngineCall); [done|].
  symmetry. clear Hall. induction Hnone as [|c l Hc _ IH]; [done|].
  rewrite filter_cons_False by (by rewrite Hc). done.
Qed.

End RunLedger.

(** ** The revised properties on concrete instances *)

Section RevisedInstances.
Import Demo.

(** The engine that updates the ref only once the remote accepted: on
    the network its push writes, off the network it does not, and the
    ledger is left as it was. *)
Lemma push_ledger_is_what_was_written_witness :
  let E := engine failing_clone Offline.push_then_update_ref in
  @push_calls _ _ Offline.browser E "origin" "main" world
  = [HttpCall (JStr "POST git-receive-pack")]
  ∧ ledger (@gitPush _ _ Offline.browser E "origin" "main" world).1
    = ledger world.
Proof.
  intros E.
  assert (@push_calls _ _ Offline.browser E "origin" "main" world
          = [HttpCall (JStr "POST git-receive-pack")]) as Hcalls
    by (by vm_compute).
  split; [exact Hcalls|].
  apply (@push_ledger_is_what_was_written _ _ Offline.browser E
           "origin" "main" world).
  rewrite Hcalls. by repeat constructor.
Defined.

Example push_on_the_network_writes :
  let E := engine failing_clone Offline.push_then_update_ref in
  @push_calls _ _ _ E "origin" "main" world
  = [HttpCall (JStr "POST git-receive-pack");
     FsWriteFile "/home/project/.git/refs/remotes/origin/main"
                 (JStr "0a1b2c") utf8]
  ∧ map_to_list (ledger (@gitPush _ _ _ E "origin" "main" world).1)
    = [("old.txt", mkEntry (JStr "old") (JStr "utf8"));
       (".git/refs/remotes/origin/main", mkEntry (JStr "0a1b2c") (JStr "utf8"))].
Proof. by vm_compute. Qed.

(** A stored number is valid JSON and a credential for the code. *)
Example number_cookie_is_a_credential :
  let w := mkWorld true "/home/project" ∅ (mkDisk ∅ [])
                   {[ "git:example.com" := "5" ]} 0 [] in
  @JSON_parse Offline.browser "5" = Some (JNum "5")
  ∧ @lookupSavedPassword Disk Offline.browser
      "https://example.com/org/repo.git" w
    = (w, Ok (Some (mkCredential JUndefined JUndefined))).
Proof. by vm_compute. Qed.

End RevisedInstances.
